(** * HybridProductivity_FHE: the contract and the frontend record manager

    A shallow embedding of
    - the Solidity contract [HybridProductivityFHE] (encrypted-metric store,
      decryption request / callback handshake, per-category counter), and
    - the record manager of the React frontend ([loadRecords], [submitRecord]
      and the productivity score of src/frontend/web/src/App.tsx),
    followed by the properties of the specification that concern them. *)

From Stdlib Require Import ZArith NArith List String Lia Sorted QArith Qround.
From Stdlib Require Import Floats.SpecFloat.
From stdpp Require Import gmap strings list.

Set Warnings "-register-all".

Local Open Scope N_scope.

(** ** The contract *)

Module Contract.

(** *** Value types *)

(** [uint256], with the bound Solidity 0.8 checks on every addition. *)
Definition uint256 := N.
Definition MAX_UINT256 : N := 2 ^ 256 - 1.

(** [bytes32]; [euint32] is a user-defined value type over it, the handle of a
    ciphertext.  Storage that was never written reads as the zero handle. *)
Definition bytes32 := N.
Definition euint32 := N.
Definition bytes := list Byte.byte.

(** The two callbacks a decryption request can name
    ([this.handleMetricDecryption.selector] and its sibling). *)
Inductive selector :=
| handleMetricDecryption_selector
| handleCategoryDecryption_selector.

Record EncryptedMetric := mkEncryptedMetric {
  id : uint256;
  encryptedOutput : euint32;
  encryptedHours : euint32;
  encryptedTasks : euint32;
  timestamp : uint256
}.

Record RevealedMetric := mkRevealedMetric {
  output : uint256;
  hours : uint256;
  tasks : uint256;
  revealed : bool
}.

(** What a storage slot that was never written reads as. *)
Definition EncryptedMetric_zero : EncryptedMetric := mkEncryptedMetric 0 0 0 0 0.
Definition RevealedMetric_zero : RevealedMetric := mkRevealedMetric 0 0 0 false.

Inductive Event :=
| MetricSubmitted (id timestamp : uint256)
| MetricDecryptionRequested (id : uint256)
| MetricRevealed (id : uint256)
| CategoryCountDecryptionRequested (category : string)
| CategoryCountDecrypted (category : string) (count : N).

(** *** Storage *)

(** The seven state variables of the contract, in declaration order.  A
    Solidity mapping is a finite map read with a default. *)
Record Storage := mkStorage {
  metricCount : uint256;
  encryptedMetrics : gmap N EncryptedMetric;
  revealedMetrics : gmap N RevealedMetric;
  encryptedTaskCounters : gmap string euint32;
  taskCategories : list string;
  requestToMetricId : gmap N uint256;
  requestToCategoryHash : gmap N bytes32
}.

Definition Storage_init : Storage :=
  mkStorage 0 ∅ ∅ ∅ [] ∅ ∅.

Definition encryptedMetrics_at (s : Storage) (k : uint256) : EncryptedMetric :=
  default EncryptedMetric_zero (encryptedMetrics s !! k).
Definition revealedMetrics_at (s : Storage) (k : uint256) : RevealedMetric :=
  default RevealedMetric_zero (revealedMetrics s !! k).
Definition encryptedTaskCounters_at (s : Storage) (k : string) : euint32 :=
  default 0 (encryptedTaskCounters s !! k).
Definition requestToMetricId_at (s : Storage) (k : uint256) : uint256 :=
  default 0 (requestToMetricId s !! k).
Definition requestToCategoryHash_at (s : Storage) (k : uint256) : bytes32 :=
  default 0 (requestToCategoryHash s !! k).

Definition set_metricCount (v : uint256) (s : Storage) : Storage :=
  mkStorage v (encryptedMetrics s) (revealedMetrics s) (encryptedTaskCounters s)
            (taskCategories s) (requestToMetricId s) (requestToCategoryHash s).
Definition set_encryptedMetrics (k : uint256) (v : EncryptedMetric) (s : Storage) : Storage :=
  mkStorage (metricCount s) (<[k := v]> (encryptedMetrics s)) (revealedMetrics s)
            (encryptedTaskCounters s) (taskCategories s) (requestToMetricId s)
            (requestToCategoryHash s).
Definition set_revealedMetrics (k : uint256) (v : RevealedMetric) (s : Storage) : Storage :=
  mkStorage (metricCount s) (encryptedMetrics s) (<[k := v]> (revealedMetrics s))
            (encryptedTaskCounters s) (taskCategories s) (requestToMetricId s)
            (requestToCategoryHash s).
Definition set_encryptedTaskCounters (k : string) (v : euint32) (s : Storage) : Storage :=
  mkStorage (metricCount s) (encryptedMetrics s) (revealedMetrics s)
            (<[k := v]> (encryptedTaskCounters s)) (taskCategories s)
            (requestToMetricId s) (requestToCategoryHash s).
Definition push_taskCategories (c : string) (s : Storage) : Storage :=
  mkStorage (metricCount s) (encryptedMetrics s) (revealedMetrics s)
            (encryptedTaskCounters s) (taskCategories s ++ [c])
            (requestToMetricId s) (requestToCategoryHash s).
Definition set_requestToMetricId (k v : uint256) (s : Storage) : Storage :=
  mkStorage (metricCount s) (encryptedMetrics s) (revealedMetrics s)
            (encryptedTaskCounters s) (taskCategories s)
            (<[k := v]> (requestToMetricId s)) (requestToCategoryHash s).
Definition set_requestToCategoryHash (k : uint256) (v : bytes32) (s : Storage) : Storage :=
  mkStorage (metricCount s) (encryptedMetrics s) (revealedMetrics s)
            (encryptedTaskCounters s) (taskCategories s)
            (requestToMetricId s) (<[k := v]> (requestToCategoryHash s)).

(** Assignments through the storage reference [rm] of
    [handleMetricDecryption], one field at a time. *)
Definition set_output (v : uint256) (r : RevealedMetric) : RevealedMetric :=
  mkRevealedMetric v (hours r) (tasks r) (revealed r).
Definition set_hours (v : uint256) (r : RevealedMetric) : RevealedMetric :=
  mkRevealedMetric (output r) v (tasks r) (revealed r).
Definition set_tasks (v : uint256) (r : RevealedMetric) : RevealedMetric :=
  mkRevealedMetric (output r) (hours r) v (revealed r).
Definition set_revealed (v : bool) (r : RevealedMetric) : RevealedMetric :=
  mkRevealedMetric (output r) (hours r) (tasks r) v.
Definition update_revealedMetrics (k : uint256)
    (f : RevealedMetric -> RevealedMetric) (s : Storage) : Storage :=
  set_revealedMetrics k (f (revealedMetrics_at s k)) s.

(** *** What the contract imports

    The FHE library ([@fhevm/solidity]) and the EVM built-ins the contract
    calls are not part of the repository.  They are taken as they are used:
    every library call may revert ([None]) and may change the library's own
    state [L]; [keccak256] and the ABI decoders are pure. *)
Record Env (L : Type) := mkEnv {
  FHE_isInitialized : euint32 -> bool;
  FHE_toBytes32 : euint32 -> bytes32;
  FHE_asEuint32 : N -> L -> option (euint32 * L);
  FHE_add : euint32 -> euint32 -> L -> option (euint32 * L);
  FHE_requestDecryption : list bytes32 -> selector -> L -> option (uint256 * L);
  FHE_checkSignatures : uint256 -> bytes -> bytes -> L -> option L;
  keccak256 : string -> bytes32;
  abi_decode_uint256_array : bytes -> option (list uint256);
  abi_decode_uint32 : bytes -> option N
}.
Arguments FHE_isInitialized {L}.
Arguments FHE_toBytes32 {L}.
Arguments FHE_asEuint32 {L}.
Arguments FHE_add {L}.
Arguments FHE_requestDecryption {L}.
Arguments FHE_checkSignatures {L}.
Arguments keccak256 {L}.
Arguments abi_decode_uint256_array {L}.
Arguments abi_decode_uint32 {L}.

(** *** Transactions: a state and revert monad *)

Inductive Failure :=
| Error (reason : string)      (* require(..., reason) and revert(reason) *)
| Panic (code : N)             (* 0x11 overflow, 0x32 index out of range *)
| ExternalRevert.              (* a revert inside a library call or abi.decode *)

Section Machine.

Context {L : Type}.

Record World := mkWorld {
  store : Storage;
  lib : L;
  events : list Event
}.

Inductive Outcome (A : Type) :=
| Done (a : A) (w : World)
| Reverted (f : Failure).
Arguments Done {A}.
Arguments Reverted {A}.

Definition Tx (A : Type) := World -> Outcome A.

Definition ret {A} (a : A) : Tx A := fun w => Done a w.
Definition bind {A B} (m : Tx A) (k : A -> Tx B) : Tx B :=
  fun w => match m w with
           | Done a w' => k a w'
           | Reverted f => Reverted f
           end.
Definition revert {A} (f : Failure) : Tx A := fun _ => Reverted f.
Definition require (b : bool) (reason : string) : Tx unit :=
  if b then ret tt else revert (Error reason).
Definition sload {A} (f : Storage -> A) : Tx A :=
  fun w => Done (f (store w)) w.
Definition sstore (f : Storage -> Storage) : Tx unit :=
  fun w => Done tt (mkWorld (f (store w)) (lib w) (events w)).
Definition emit (e : Event) : Tx unit :=
  fun w => Done tt (mkWorld (store w) (lib w) (events w ++ [e])).
Definition external {A} (f : L -> option (A * L)) : Tx A :=
  fun w => match f (lib w) with
           | Some (a, l') => Done a (mkWorld (store w) l' (events w))
           | None => Reverted ExternalRevert
           end.
Definition decode {A} (o : option A) : Tx A :=
  match o with
  | Some a => ret a
  | None => revert ExternalRevert
  end.
(** [a[i]] on a memory array. *)
Definition index (a : list uint256) (i : nat) : Tx uint256 :=
  match a !! i with
  | Some v => ret v
  | None => revert (Panic 50)
  end.
(** Checked [+] of Solidity 0.8. *)
Definition checked_add (a b : uint256) : Tx uint256 :=
  if a + b <=? MAX_UINT256 then ret (a + b) else revert (Panic 17).

End Machine.

Arguments World : clear implicits.
Arguments Outcome : clear implicits.
Arguments Tx : clear implicits.
Arguments Done {L A}.
Arguments Reverted {L A}.

Notation "'let*' x ':=' c 'in' k" := (bind c (fun x => k))
  (at level 10, x name, c at level 100, k at level 200).
Notation "'let*' '_' ':=' c 'in' k" := (bind c (fun _ => k))
  (at level 10, c at level 100, k at level 200).

(** *** The functions of the contract *)

Section Functions.

Context {L : Type} (E : Env L).

(** [block.timestamp] is the argument [now].  [metricCount += 1] is checked. *)
Definition submitEncryptedMetric (now : uint256)
    (encryptedOutput' encryptedHours' encryptedTasks' : euint32) : Tx L unit :=
  let* c := sload metricCount in
  let* c' := checked_add c 1 in
  let* _ := sstore (set_metricCount c') in
  let* newId := sload metricCount in
  let* _ := sstore (set_encryptedMetrics newId
              (mkEncryptedMetric newId encryptedOutput' encryptedHours'
                                 encryptedTasks' now)) in
  let* _ := sstore (set_revealedMetrics newId (mkRevealedMetric 0 0 0 false)) in
  emit (MetricSubmitted newId now).

(** The modifier [onlyEmployee] has the empty body [_;].  In the source the
    declaration of [ciphers] is garbled ([bytes32 ;]); the three assignments
    that follow fix its contents. *)
Definition requestMetricDecryption (metricId : uint256) : Tx L unit :=
  let* rm := sload (fun s => revealedMetrics_at s metricId) in
  let* _ := require (negb (revealed rm)) "Already revealed" in
  let* em := sload (fun s => encryptedMetrics_at s metricId) in
  let ciphers := [FHE_toBytes32 E (encryptedOutput em);
                  FHE_toBytes32 E (encryptedHours em);
                  FHE_toBytes32 E (encryptedTasks em)] in
  let* reqId := external (FHE_requestDecryption E ciphers
                            handleMetricDecryption_selector) in
  let* _ := sstore (set_requestToMetricId reqId metricId) in
  emit (MetricDecryptionRequested metricId).

Definition TaskCategory : string := "TaskCategory".

Definition handleMetricDecryption (requestId : uint256) (cleartexts proof : bytes)
    : Tx L unit :=
  let* metricId := sload (fun s => requestToMetricId_at s requestId) in
  let* _ := require (negb (metricId =? 0)) "Invalid request" in
  let* rm := sload (fun s => revealedMetrics_at s metricId) in
  let* _ := require (negb (revealed rm)) "Already revealed" in
  let* _ := external (fun l => (fun l' => (tt, l')) <$>
                        FHE_checkSignatures E requestId cleartexts proof l) in
  let* results := decode (abi_decode_uint256_array E cleartexts) in
  let* r0 := index results 0 in
  let* _ := sstore (update_revealedMetrics metricId (set_output r0)) in
  let* r1 := index results 1 in
  let* _ := sstore (update_revealedMetrics metricId (set_hours r1)) in
  let* r2 := index results 2 in
  let* _ := sstore (update_revealedMetrics metricId (set_tasks r2)) in
  let* _ := sstore (update_revealedMetrics metricId (set_revealed true)) in
  let category := TaskCategory in
  let* c := sload (fun s => encryptedTaskCounters_at s category) in
  let* _ := (if negb (FHE_isInitialized E c)
             then let* zero := external (FHE_asEuint32 E 0) in
                  let* _ := sstore (set_encryptedTaskCounters category zero) in
                  sstore (push_taskCategories category)
             else ret tt) in
  let* c' := sload (fun s => encryptedTaskCounters_at s category) in
  let* one := external (FHE_asEuint32 E 1) in
  let* sum := external (FHE_add E c' one) in
  let* _ := sstore (set_encryptedTaskCounters category sum) in
  emit (MetricRevealed metricId).

Definition getRevealedMetric (metricId : uint256) (s : Storage)
    : uint256 * uint256 * uint256 * bool :=
  let r := revealedMetrics_at s metricId in
  (output r, hours r, tasks r, revealed r).

Definition getEncryptedTaskCounter (category : string) (s : Storage) : euint32 :=
  encryptedTaskCounters_at s category.

(** The modifier [onlyManager] has the empty body [_;]. *)
Definition requestCategoryDecryption (category : string) : Tx L unit :=
  let* count := sload (fun s => encryptedTaskCounters_at s category) in
  let* _ := require (FHE_isInitialized E count) "Category unknown" in
  let ciphers := [FHE_toBytes32 E count] in
  let* reqId := external (FHE_requestDecryption E ciphers
                            handleCategoryDecryption_selector) in
  let* _ := sstore (set_requestToCategoryHash reqId (keccak256 E category)) in
  emit (CategoryCountDecryptionRequested category).

(** The loop of [_categoryFromHash] over [taskCategories]. *)
Fixpoint categoryFromHash_loop (cats : list string) (h : bytes32) : option string :=
  match cats with
  | [] => None
  | c :: rest => if keccak256 E c =? h then Some c else categoryFromHash_loop rest h
  end.

Definition _categoryFromHash (h : bytes32) : Tx L string :=
  let* cats := sload taskCategories in
  match categoryFromHash_loop cats h with
  | Some c => ret c
  | None => revert (Error "Category not found")
  end.

Definition handleCategoryDecryption (requestId : uint256) (cleartexts proof : bytes)
    : Tx L unit :=
  let* categoryHash := sload (fun s => requestToCategoryHash_at s requestId) in
  let* _ := require (negb (categoryHash =? 0)) "Unknown request" in
  let* _ := external (fun l => (fun l' => (tt, l')) <$>
                        FHE_checkSignatures E requestId cleartexts proof l) in
  let* count := decode (abi_decode_uint32 E cleartexts) in
  let* category := _categoryFromHash categoryHash in
  emit (CategoryCountDecrypted category count).

(** *** Calls and call sequences

    The five functions that write storage.  The two views are the pure
    functions above; [receive] and [fallback] have empty bodies. *)

Inductive Call :=
| SubmitEncryptedMetric (encryptedOutput' encryptedHours' encryptedTasks' : euint32)
| RequestMetricDecryption (metricId : uint256)
| HandleMetricDecryption (requestId : uint256) (cleartexts proof : bytes)
| RequestCategoryDecryption (category : string)
| HandleCategoryDecryption (requestId : uint256) (cleartexts proof : bytes).

(** A transaction: the block timestamp it runs at, and the call. *)
Definition exec (now : uint256) (c : Call) : Tx L unit :=
  match c with
  | SubmitEncryptedMetric o h t => submitEncryptedMetric now o h t
  | RequestMetricDecryption m => requestMetricDecryption m
  | HandleMetricDecryption r ct pf => handleMetricDecryption r ct pf
  | RequestCategoryDecryption c => requestCategoryDecryption c
  | HandleCategoryDecryption r ct pf => handleCategoryDecryption r ct pf
  end.

(** A reverted transaction leaves the world as it was. *)
Definition transact (w : World L) (tx : uint256 * Call) : World L :=
  match exec (fst tx) (snd tx) w with
  | Done _ w' => w'
  | Reverted _ => w
  end.

Definition run (w : World L) (txs : list (uint256 * Call)) : World L :=
  fold_left transact txs w.

End Functions.

(** *** Notions the properties are stated with *)

Section Notions.

Context {L : Type} (E : Env L).

(** The counter update at the end of [handleMetricDecryption], as a relation
    between the storage and library state before and after it. *)
Definition counter_bumped (s : Storage) (l : L) (s' : Storage) (l' : L) : Prop :=
  let c := encryptedTaskCounters_at s TaskCategory in
  exists (s1 : Storage) (l1 l2 : L) (one sum : euint32),
    (if FHE_isInitialized E c
     then s1 = s /\ l1 = l
     else exists zero,
            FHE_asEuint32 E 0 l = Some (zero, l1) /\
            s1 = push_taskCategories TaskCategory
                   (set_encryptedTaskCounters TaskCategory zero s)) /\
    FHE_asEuint32 E 1 l1 = Some (one, l2) /\
    FHE_add E (encryptedTaskCounters_at s1 TaskCategory) one l2 = Some (sum, l') /\
    s' = set_encryptedTaskCounters TaskCategory sum s1.

(** A metric id is stored once [submitEncryptedMetric] has assigned it. *)
Definition stored (s : Storage) (k : uint256) : Prop :=
  1 <= k <= metricCount s.

Definition is_revealed (w : World L) (k : uint256) : bool :=
  revealed (revealedMetrics_at (store w) k).


(** The number of times the flag of [k] goes from false to true along a
    sequence of transactions. *)
Fixpoint reveal_transitions (w : World L) (k : uint256)
    (txs : list (uint256 * Call)) : nat :=
  match txs with
  | [] => 0
  | tx :: rest =>
      let w' := transact E w tx in
      ((if negb (is_revealed w k) && is_revealed w' k then 1 else 0)
       + reveal_transitions w' k rest)%nat
  end.

(** No submission in [txs] assigns the id [k]: it is assigned already, or it
    is still beyond the counter at the end. *)
Definition not_assigned_during (w : World L) (k : uint256)
    (txs : list (uint256 * Call)) : Prop :=
  k <= metricCount (store w) \/ metricCount (store (run E w txs)) < k.

(** The ids [submitEncryptedMetric] announced, oldest first. *)
Fixpoint submitted_ids (log : list Event) : list uint256 :=
  match log with
  | [] => []
  | MetricSubmitted k _ :: rest => k :: submitted_ids rest
  | _ :: rest => submitted_ids rest
  end.

(** [a; a+1; ...; a+n-1] *)
Fixpoint consecutive_from (a : uint256) (n : nat) : list uint256 :=
  match n with
  | O => []
  | S n' => a :: consecutive_from (a + 1) n'
  end.

(** What the contract relies on for its correlation maps: the library never
    hands out a request id twice.  [issued l r] reads: the library in state
    [l] has handed out [r] before. *)
Record fresh_request_ids (issued : L -> uint256 -> Prop) : Prop := {
  requestDecryption_fresh : forall cs sel l r l',
    FHE_requestDecryption E cs sel l = Some (r, l') ->
    ~ issued l r /\ issued l' r /\ forall r', issued l r' -> issued l' r';
  asEuint32_issued : forall n l h l' r,
    FHE_asEuint32 E n l = Some (h, l') -> issued l r -> issued l' r;
  add_issued : forall a b l h l' r,
    FHE_add E a b l = Some (h, l') -> issued l r -> issued l' r;
  checkSignatures_issued : forall rid ct pf l l' r,
    FHE_checkSignatures E rid ct pf l = Some l' -> issued l r -> issued l' r
}.

(** Every request id the contract has a binding for came from the library. *)
Definition bound_ids_issued (issued : L -> uint256 -> Prop) (w : World L) : Prop :=
  forall r,
    is_Some (requestToMetricId (store w) !! r) \/
    is_Some (requestToCategoryHash (store w) !! r) ->
    issued (lib w) r.

(** The number of [MetricRevealed] events in a log. *)
Fixpoint revealed_count (log : list Event) : N :=
  match log with
  | [] => 0
  | MetricRevealed _ :: rest => 1 + revealed_count rest
  | _ :: rest => revealed_count rest
  end.

(** What a counter needs of the library: the zero handle counts as
    uninitialized, and on initialized handles [asEuint32] and [add] produce
    initialized handles of the right plaintext, [plain] being the 32-bit
    value a handle stands for. *)
Record counting_library (plain : euint32 -> N) : Prop := {
  zero_uninitialized : FHE_isInitialized E 0 = false;
  asEuint32_plain : forall n l h l',
    FHE_asEuint32 E n l = Some (h, l') ->
    FHE_isInitialized E h = true /\ plain h = n mod 2 ^ 32;
  add_plain : forall a b l h l',
    FHE_add E a b l = Some (h, l') ->
    FHE_isInitialized E a = true -> FHE_isInitialized E b = true ->
    FHE_isInitialized E h = true /\ plain h = (plain a + plain b) mod 2 ^ 32
}.

(** What the category bookkeeping keeps true: only "TaskCategory" has a
    counter, a written counter comes with its name in the list, the list
    holds nothing else, and every stored category hash is the hash of a
    listed "TaskCategory". *)
Record category_invariant (s : Storage) : Prop := {
  other_counters_unwritten : forall c,
    c <> TaskCategory -> encryptedTaskCounters s !! c = None;
  written_counter_listed :
    is_Some (encryptedTaskCounters s !! TaskCategory) -> In TaskCategory (taskCategories s);
  only_TaskCategory_listed : Forall (eq TaskCategory) (taskCategories s);
  hashes_of_TaskCategory : forall r h,
    requestToCategoryHash s !! r = Some h ->
    h = keccak256 E TaskCategory /\ In TaskCategory (taskCategories s)
}.

(** The EncryptedMetric map holds exactly the stored ids, each under its own
    id. *)
Definition ids_dense (s : Storage) : Prop :=
  forall k,
    (is_Some (encryptedMetrics s !! k) <-> stored s k) /\
    (forall em, encryptedMetrics s !! k = Some em -> id em = k).

(** No request id is bound in both correlation maps. *)
Definition maps_disjoint (s : Storage) : Prop :=
  forall r,
    is_Some (requestToMetricId s !! r) ->
    is_Some (requestToCategoryHash s !! r) -> False.

(** The counter of "TaskCategory" stands for the number of reveals in the
    log. *)
Definition counts_reveals (plain : euint32 -> N) (w : World L) : Prop :=
  let c := encryptedTaskCounters_at (store w) TaskCategory in
  (revealed_count (events w) <> 0 /\
   FHE_isInitialized E c = true /\
   plain c = revealed_count (events w) mod 2 ^ 32) \/
  (c = 0 /\ revealed_count (events w) = 0).

(** A metric whose flag is clear reads as all zeros. *)
Definition unrevealed_zero (s : Storage) : Prop :=
  forall k,
    revealed (revealedMetrics_at s k) = false ->
    revealedMetrics_at s k = RevealedMetric_zero.

(** Every [MetricRevealed] in a log is for a non-zero id and comes after a
    [MetricDecryptionRequested] for the same id. *)
Definition reveals_requested (log : list Event) : Prop :=
  forall pre k post,
    log = pre ++ MetricRevealed k :: post ->
    k <> 0 /\ In (MetricDecryptionRequested k) pre.

(** Every metric id a request id is bound to has its request in the log. *)
Definition bindings_requested (w : World L) : Prop :=
  forall r m,
    requestToMetricId (store w) !! r = Some m ->
    In (MetricDecryptionRequested m) (events w).

(** The category list is empty until the first reveal and holds
    "TaskCategory" once from then on. *)
Definition listed_once (w : World L) : Prop :=
  let c := encryptedTaskCounters_at (store w) TaskCategory in
  (revealed_count (events w) <> 0 /\
   FHE_isInitialized E c = true /\
   taskCategories (store w) = [TaskCategory]) \/
  (c = 0 /\ revealed_count (events w) = 0 /\ taskCategories (store w) = []).

(** The storage right after deployment, with the library in state [l]. *)
Definition deployed (l : L) : World L := mkWorld Storage_init l [].

End Notions.

(** *** A library to run examples with

    A permissive stand-in for the imported library: the handle of a trivial
    encryption of [n] is [n + 1] (never the zero handle), request ids come
    from a counter, which is the whole library state, and every request and
    every signature is accepted. *)
Definition demo_env : Env N :=
  mkEnv N
    (fun h => negb (h =? 0))
    (fun h => h)
    (fun n l => Some (n + 1, l))
    (fun a b l => Some (a + b - 1, l))
    (fun _ _ l => Some (l, l + 1))
    (fun _ _ _ l => Some l)
    (fun s => N.of_nat (String.length s) + 1)
    (fun ct => Some (map Byte.to_N ct))
    (fun ct => match ct with b :: _ => Some (Byte.to_N b) | [] => None end).

(** The contract right after deployment. *)
Definition demo_init : World N := mkWorld Storage_init 0 [].

(** One metric submitted, its decryption requested and delivered. *)
Definition demo_reveal_1 : list (uint256 * Call) :=
  [ (100, SubmitEncryptedMetric 11 12 13);
    (101, RequestMetricDecryption 1);
    (102, HandleMetricDecryption 0 [Byte.x07; Byte.x08; Byte.x05] []) ].

Definition demo_revealed : World N := run demo_env demo_init demo_reveal_1.

(** The world the callback of [demo_reveal_1] is delivered in. *)
Definition demo_requested : World N :=
  run demo_env demo_init
    [ (100, SubmitEncryptedMetric 11 12 13); (101, RequestMetricDecryption 1) ].

(** The same, from the world after the submission, with the callback
    delivered a second time. *)
Definition demo_submitted : World N :=
  transact demo_env demo_init (100, SubmitEncryptedMetric 11 12 13).

Definition demo_callback_twice : list (uint256 * Call) :=
  [ (101, RequestMetricDecryption 1);
    (102, HandleMetricDecryption 0 [Byte.x07; Byte.x08; Byte.x05] []);
    (103, HandleMetricDecryption 0 [Byte.x01; Byte.x02; Byte.x03] []) ].

(** A request for metric 1 and its callback, a submission, and a second
    request and callback. *)
Definition demo_reveal_before_submit : list (uint256 * Call) :=
  [ (100, RequestMetricDecryption 1);
    (101, HandleMetricDecryption 0 [Byte.x07; Byte.x08; Byte.x05] []) ].

Definition demo_submit_1 : uint256 * Call :=
  (102, SubmitEncryptedMetric 11 12 13).

Definition demo_reveal_again : list (uint256 * Call) :=
  [ (103, RequestMetricDecryption 1);
    (104, HandleMetricDecryption 1 [Byte.x07; Byte.x08; Byte.x05] []) ].

(** The request counter of [demo_env] has handed out the ids below it. *)
Definition demo_issued (l : N) (r : uint256) : Prop := r < l.

(** ... followed by a request for the category count, and its callback. *)
Definition demo_counted : World N :=
  transact demo_env demo_revealed (104, RequestCategoryDecryption "TaskCategory").

Definition demo_more : list (uint256 * Call) :=
  [ (105, SubmitEncryptedMetric 21 22 23);
    (106, RequestMetricDecryption 2);
    (107, HandleCategoryDecryption 1 [Byte.x01] []) ].

(** The plaintext behind a handle of [demo_env]. *)
Definition demo_plain (h : euint32) : N := (h - 1) mod 2 ^ 32.

(** Two metrics submitted and revealed, with a request for metric 0 and
    callbacks that are refused in between. *)
Definition demo_two_reveals : list (uint256 * Call) :=
  [ (100, SubmitEncryptedMetric 11 12 13);
    (101, SubmitEncryptedMetric 21 22 23);
    (102, RequestMetricDecryption 0);
    (103, RequestMetricDecryption 1);
    (104, HandleMetricDecryption 0 [Byte.x07; Byte.x08; Byte.x05] []);
    (105, HandleMetricDecryption 1 [Byte.x07; Byte.x08] []);
    (106, HandleMetricDecryption 1 [Byte.x07; Byte.x08; Byte.x05] []);
    (107, RequestMetricDecryption 2);
    (108, HandleMetricDecryption 2 [Byte.x01; Byte.x02; Byte.x03] []);
    (109, RequestCategoryDecryption "TaskCategory");
    (110, HandleCategoryDecryption 3 [Byte.x02] []) ].

End Contract.

(** ** The record manager of the frontend *)

Module Frontend.

(** *** Numbers

    A JavaScript number is an IEEE 754 binary64 value; the arithmetic
    operators round to nearest, ties to even. *)
Definition Number := spec_float.
Definition prec : Z := 53.
Definition emax : Z := 1024.

Definition number_div : Number -> Number -> Number := SFdiv prec emax.
Definition number_mul : Number -> Number -> Number := SFmul prec emax.
Definition number_sub : Number -> Number -> Number := SFsub prec emax.

(** The number an integer literal or an integer form value denotes. *)
Definition of_int (z : Z) : Number := binary_normalize prec emax z 0 false.
(** The literal [0.5]. *)
Definition half : Number := binary_normalize prec emax 1 (-1) false.

(** [Math.round]: a number that is not finite or is integral is returned as
    it is; otherwise the closest integer, the one towards plus infinity on
    a tie, with the sign of the argument kept on a zero result.  For
    [x = n * 2^e] with [e < 0], [floor (x + 1/2)] is
    [(2 n + 2^-e) / 2^(1-e)]. *)
Definition Math_round (x : Number) : Number :=
  match x with
  | S754_finite s m e =>
      if (0 <=? e)%Z then x
      else
        let n := if s then Z.neg m else Z.pos m in
        let k := ((2 * n + 2 ^ (- e)) / 2 ^ (1 - e))%Z in
        if (k =? 0)%Z then S754_zero s else of_int k
  | _ => x
  end.

(** The integer a number is, if it is one. *)
Definition to_int (x : Number) : option Z :=
  match x with
  | S754_zero _ => Some 0%Z
  | S754_finite s m e =>
      let n := if s then Z.neg m else Z.pos m in
      if (0 <=? e)%Z then Some (n * 2 ^ e)%Z
      else if (n mod 2 ^ (- e) =? 0)%Z then Some (n / 2 ^ (- e))%Z
      else None
  | _ => None
  end.

(** *** The form and the score *)

(** [newRecordData].  The three numeric fields hold what the arithmetic
    operators see: the number the form value converts to. *)
Record NewRecordData := mkNewRecordData {
  workType : string;
  hoursWorked : Number;
  tasksCompleted : Number;
  distractions : Number
}.

(** The bounds the form declares on its number inputs ([min], [max]). *)
Definition hoursWorked_min : Z := 1.
Definition hoursWorked_max : Z := 16.
Definition tasksCompleted_min : Z := 0.
Definition tasksCompleted_max : Z := 50.
Definition distractions_min : Z := 0.
Definition distractions_max : Z := 20.

Definition productivityScore (newRecordData : NewRecordData) : Number :=
  Math_round
    (number_sub
       (number_mul
          (number_div (tasksCompleted newRecordData) (hoursWorked newRecordData))
          (of_int 10))
       (number_mul (distractions newRecordData) half)).

(** The formula as the specification words it, over the rationals: round
    ((t / h) * 10 - d * 0.5), halves towards plus infinity. *)
Definition round_half_up (q : Q) : Z := Qfloor (q + (1 # 2))%Q.

Definition score_formula (h t d : Z) : Z :=
  round_half_up ((inject_Z t / inject_Z h) * inject_Z 10 - inject_Z d * (1 # 2))%Q.

(** The whole numbers from [lo], [n] of them. *)
Definition Z_range (lo : Z) (n : nat) : list Z :=
  map (fun i => (lo + Z.of_nat i)%Z) (seq 0 n).

(** The form filled in with whole numbers. *)
Definition form_data (h t d : Z) : NewRecordData :=
  mkNewRecordData "remote" (of_int h) (of_int t) (of_int d).

(** The computed score is the whole number the formula gives. *)
Definition score_agrees (h t d : Z) : bool :=
  match to_int (productivityScore (form_data h t d)) with
  | Some z => (z =? score_formula h t d)%Z
  | None => false
  end.






(** *** JSON values and records *)

Inductive json :=
| JNull
| JBool (b : bool)
| JNumber (x : Number)
| JString (s : string)
| JArray (elems : list json)
| JObject (props : list (string * json)).

(** The value of an expression: a JSON value, or [undefined]. *)
Inductive jsval :=
| undefined
| value (j : json).

Fixpoint assoc (name : string) (props : list (string * json)) : jsval :=
  match props with
  | [] => undefined
  | (n, v) :: rest => if String.eqb n name then value v else assoc name rest
  end.

(** [recordData.name] on what [JSON.parse] returned: reading a property of
    [null] throws ([None]); a value without the property gives [undefined]. *)
Definition get (recordData : json) (name : string) : option jsval :=
  match recordData with
  | JNull => None
  | JObject props => Some (assoc name props)
  | _ => Some undefined
  end.

(** [ProductivityRecord]; the declared field types are not checked when the
    program runs, so a field holds whatever the blob had. *)
Record ProductivityRecord := mkProductivityRecord {
  id : json;
  encryptedData : jsval;
  timestamp : jsval;
  owner : jsval;
  record_workType : jsval;
  record_productivityScore : jsval
}.

(** The object literal pushed by [loadRecords]; its five property reads are
    inside the inner [try]. *)
Definition make_record (key : json) (recordData : json) : option ProductivityRecord :=
  match get recordData "data", get recordData "timestamp",
        get recordData "owner", get recordData "workType",
        get recordData "productivityScore" with
  | Some d, Some ts, Some o, Some wt, Some ps =>
      Some (mkProductivityRecord key d ts o wt ps)
  | _, _, _, _, _ => None
  end.

(** What [for (const key of keys)] iterates over: the elements of an array,
    the characters of a string; anything else is not iterable ([None]). *)
Definition iterate (keys : json) : option (list json) :=
  match keys with
  | JArray elems => Some elems
  | JString s => Some (map (fun c => JString (String c EmptyString)) (list_ascii_of_string s))
  | _ => None
  end.

Inductive ConsoleError :=
| Error_parsing_record_keys
| Error_parsing_record_data (key : json)
| Error_loading_record (key : json)
| Error_loading_records
| Error_parsing_keys.

(** What [getContractReadOnly] and [getContractWithSigner] can do: throw,
    return [null], or return a contract. *)
Inductive Acquired (C : Type) :=
| Threw
| Null
| Got (contract : C).
Arguments Threw {C}.
Arguments Null {C}.
Arguments Got {C}.

Definition bytes := list Byte.byte.

(** Modelled from the spec: the storage behind [setData] and [getData], which
    the repository's contract source does not define: string-keyed byte
    blobs; a key never written reads as empty bytes. *)
Abbreviation Chain := (gmap string bytes).

(** A contract, as far as reading goes: [getData key] returns bytes or
    throws. *)
Definition ReadContract := string -> option bytes.

(** [r.workType === s]: strict equality with a string. *)
Definition workType_is (s : string) (r : ProductivityRecord) : bool :=
  match record_workType r with
  | value (JString t) => String.eqb t s
  | _ => false
  end.

(** The two lists the statistics are computed from. *)
Definition remoteRecords (records : list ProductivityRecord) : list ProductivityRecord :=
  List.filter (workType_is "remote") records.
Definition officeRecords (records : list ProductivityRecord) : list ProductivityRecord :=
  List.filter (workType_is "office") records.

(** The part of the component state [loadRecords] sets. *)
Record AppState := mkAppState {
  records : list ProductivityRecord;
  isRefreshing : bool;
  loading : bool
}.

Section RecordManager.

(** [JSON.parse (ethers.toUtf8String b)]; [None] when either throws. *)
Variable parse : bytes -> option json.
(** [ethers.toUtf8Bytes (JSON.stringify v)]. *)
Variable stringify : json -> bytes.
(** The string a key becomes inside the template [`record_${key}`]. *)
Variable ToString : json -> string.
(** The number a timestamp field converts to under [-]. *)
Variable ToNumber : jsval -> Number.

(** [(a, b) => b.timestamp - a.timestamp] is positive. *)
Definition comes_after (a b : ProductivityRecord) : bool :=
  SFltb (S754_zero false)
        (number_sub (ToNumber (timestamp b)) (ToNumber (timestamp a))).

(** [list.sort]: a stable sort; [a] stays before [b] unless the comparator is
    positive on them. *)
Fixpoint sort_insert (x : ProductivityRecord) (sorted : list ProductivityRecord)
    : list ProductivityRecord :=
  match sorted with
  | [] => [x]
  | e :: rest => if comes_after e x then x :: e :: rest else e :: sort_insert x rest
  end.

Definition sort (list' : list ProductivityRecord) : list ProductivityRecord :=
  fold_left (fun sorted x => sort_insert x sorted) list' [].

(** [a] may stand right before [b]: the comparator is not positive on them. *)
Definition in_order (a b : ProductivityRecord) : Prop :=
  comes_after a b = false.

(** What one key adds to the list, and what it logs. *)
Definition load_key (contract : ReadContract) (key : json)
    : list ProductivityRecord * list ConsoleError :=
  match contract ("record_" +:+ ToString key) with
  | None => ([], [Error_loading_record key])
  | Some recordBytes =>
      if (0 <? length recordBytes)%nat then
        match parse recordBytes with
        | None => ([], [Error_parsing_record_data key])
        | Some recordData =>
            match make_record key recordData with
            | Some r => ([r], [])
            | None => ([], [Error_parsing_record_data key])
            end
        end
      else ([], [])
  end.

(** The body of the [for] loop, over the keys still to visit. *)
Fixpoint load_keys (contract : ReadContract) (keys : list json)
    (list' : list ProductivityRecord) (log : list ConsoleError)
    : list ProductivityRecord * list ConsoleError :=
  match keys with
  | [] => (list', log)
  | key :: rest =>
      let '(new, errors) := load_key contract key in
      load_keys contract rest (list' ++ new) (log ++ errors)
  end.

(** The [finally] block; it also undoes the [setIsRefreshing(true)] the
    function starts with. *)
Definition settled (st : AppState) : AppState :=
  mkAppState (records st) false false.

Definition loadRecords (getContractReadOnly : Acquired ReadContract)
    (st : AppState) : AppState * list ConsoleError :=
  match getContractReadOnly with
  | Threw => (settled st, [Error_loading_records])
  | Null => (settled st, [])
  | Got contract =>
      match contract "record_keys" with
      | None => (settled st, [Error_loading_records])
      | Some keysBytes =>
          let '(keys, log) :=
            if (0 <? length keysBytes)%nat then
              match parse keysBytes with
              | Some parsed => (parsed, [])
              | None => (JArray [], [Error_parsing_record_keys])
              end
            else (JArray [], []) in
          match iterate keys with
          | None => (settled st, log ++ [Error_loading_records])
          | Some ks =>
              let '(list', log') := load_keys contract ks [] log in
              (settled (mkAppState (sort list') (isRefreshing st) (loading st)), log')
          end
      end
  end.

(** *** Submitting a record *)

Definition chain_getData (chain : Chain) : ReadContract :=
  fun key => Some (default [] (chain !! key)).

(** Which of the three contract calls of [submitRecord] throws. *)
Record Faults := mkFaults {
  setData_record_throws : bool;
  getData_keys_throws : bool;
  setData_keys_throws : bool
}.

Inductive SubmitStatus :=
| not_connected          (* the alert, before anything is sent *)
| success
| error.

(** The record object written under [`record_${recordId}`]. *)
Definition recordData (encrypted : string) (seconds : Number) (account : string)
    (newRecordData : NewRecordData) : json :=
  JObject [ ("data", JString encrypted);
            ("timestamp", JNumber seconds);
            ("owner", JString account);
            ("workType", JString (workType newRecordData));
            ("productivityScore", JNumber (productivityScore newRecordData)) ]%string.

(** [keys.push(recordId)]: only an array has [push]. *)
Definition push (keys : json) (recordId : string) : option json :=
  match keys with
  | JArray elems => Some (JArray (elems ++ [JString recordId]))
  | _ => None
  end.

(** [submitRecord].  [millis] and [suffix] are the two parts of the record id
    ([Date.now()] and the random suffix), [encrypted] the placeholder
    ciphertext, [seconds] the timestamp.  A contract call that throws sends
    nothing; one that returns has taken effect.  The result is the chain, the
    status shown and the log; the reload after a success reads only. *)
Definition submitRecord (provider : bool) (getContractWithSigner : Acquired unit)
    (faults : Faults) (millis suffix encrypted : string) (seconds : Number)
    (account : string) (newRecordData : NewRecordData) (chain : Chain)
    : Chain * SubmitStatus * list ConsoleError :=
  if negb provider then (chain, not_connected, [])
  else
    match getContractWithSigner with
    | Threw | Null => (chain, error, [])
    | Got _ =>
        let recordId := millis +:+ "-" +:+ suffix in
        let blob := stringify (recordData encrypted seconds account newRecordData) in
        if setData_record_throws faults then (chain, error, [])
        else
          let chain1 := <["record_" +:+ recordId := blob]> chain in
          if getData_keys_throws faults then (chain1, error, [])
          else
            let keysBytes := default [] (chain1 !! "record_keys"%string) in
            let '(keys, log) :=
              if (0 <? length keysBytes)%nat then
                match parse keysBytes with
                | Some parsed => (parsed, [])
                | None => (JArray [], [Error_parsing_keys])
                end
              else (JArray [], []) in
            match push keys recordId with
            | None => (chain1, error, log)
            | Some keys' =>
                if setData_keys_throws faults then (chain1, error, log)
                else (<["record_keys"%string := stringify keys']> chain1, success, log)
            end
    end.

End RecordManager.

(** *** A parser and a contract to run examples with

    Three blobs are understood: a key list, a well-formed record and the
    text [null]; every other blob fails to parse. *)
Definition demo_record : json :=
  JObject [ ("data", JString "FHE-e30=");
            ("timestamp", JNumber (of_int 1700000000));
            ("owner", JString "0xabc");
            ("workType", JString "office");
            ("productivityScore", JNumber (of_int 5)) ]%string.

Definition demo_parse (b : bytes) : option json :=
  match b with
  | [Byte.x01] => Some (JArray [JString "a"; JString "b"; JString "c"])
  | [Byte.x02] => Some demo_record
  | [Byte.x03] => Some JNull
  | _ => None
  end.

Definition demo_stringify (j : json) : bytes :=
  match j with
  | JArray elems => Byte.x01 :: map (fun _ => Byte.x2c) elems
  | _ => [Byte.x02]
  end.

Definition demo_ToString (j : json) : string :=
  match j with
  | JString s => s
  | _ => "null"
  end.

Definition demo_ToNumber (v : jsval) : Number :=
  match v with
  | value (JNumber x) => x
  | _ => S754_nan
  end.

(** Keys [a], [b], [c]; the blob of [a] is a record, that of [b] is garbage,
    that of [c] is a record. *)
Definition demo_contract : ReadContract :=
  fun key =>
    if String.eqb key "record_keys" then Some [Byte.x01]
    else if String.eqb key "record_a" then Some [Byte.x02]
    else if String.eqb key "record_b" then Some [Byte.xff]
    else if String.eqb key "record_c" then Some [Byte.x02]
    else Some [].

(** The same contract with a key list that is garbage. *)
Definition demo_contract_bad_keys : ReadContract :=
  fun key =>
    if String.eqb key "record_keys" then Some [Byte.xff] else demo_contract key.

Definition demo_state : AppState :=
  mkAppState [mkProductivityRecord (JString "old") undefined undefined undefined
                                   undefined undefined]
             false true.

Definition demo_form : NewRecordData :=
  mkNewRecordData "remote" (of_int 8) (of_int 5) (of_int 2).

(** A submission of [demo_form] to an empty chain, with the given faults. *)
Definition demo_submit (faults : Faults) : Chain * SubmitStatus * list ConsoleError :=
  submitRecord demo_parse demo_stringify true (Got tt) faults
    "1700000000000" "k3j9x2a" "FHE-e30=" (of_int 1700000000) "0xabc" demo_form ∅.

Definition demo_blob : bytes :=
  demo_stringify (recordData "FHE-e30=" (of_int 1700000000) "0xabc" demo_form).

(** The record [loadRecords] builds from what [submitRecord] wrote. *)
Definition submitted_record (recordId encrypted : string) (seconds : Number)
    (account : string) (newRecordData : NewRecordData) : ProductivityRecord :=
  mkProductivityRecord (JString recordId) (value (JString encrypted))
    (value (JNumber seconds)) (value (JString account))
    (value (JString (workType newRecordData)))
    (value (JNumber (productivityScore newRecordData))).

(** A second parser and printer for the examples: key lists print to one
    blob and records to another, and the two blobs parse back to the key
    list and the record of [demo_submit_fresh]. *)
Definition demo_print (j : json) : bytes :=
  match j with
  | JArray _ => [Byte.x5b]
  | _ => [Byte.x7b]
  end.

Definition demo_read (b : bytes) : option json :=
  match b with
  | [Byte.x5b] => Some (JArray [JString "1700000000000-k3j9x2a"])
  | [Byte.x7b] =>
      Some (recordData "FHE-e30=" (of_int 1700000000) "0xabc" demo_form)
  | _ => None
  end.

(** A chain whose index is garbage, and one whose index is an object. *)
Definition demo_chain_bad_index : Chain := {[ "record_keys" := [Byte.xff] ]}.
Definition demo_chain_object_index : Chain := {[ "record_keys" := [Byte.x02] ]}.
Definition demo_chain_array_index : Chain := {[ "record_keys" := [Byte.x01] ]}.

(** A submission of [demo_form] to [chain] in which no call throws. *)
Definition demo_submit_to (chain : Chain) : Chain * SubmitStatus * list ConsoleError :=
  submitRecord demo_parse demo_stringify true (Got tt) (mkFaults false false false)
    "1700000000000" "k3j9x2a" "FHE-e30=" (of_int 1700000000) "0xabc" demo_form chain.

(** The same with the second parser and printer, to the empty chain. *)
Definition demo_submit_fresh : Chain * SubmitStatus * list ConsoleError :=
  submitRecord demo_read demo_print true (Got tt) (mkFaults false false false)
    "1700000000000" "k3j9x2a" "FHE-e30=" (of_int 1700000000) "0xabc" demo_form ∅.

End Frontend.
(** ** Properties of the contract *)

Module ContractFacts.

Import Contract.

(** *** Effect of each function on the world *)

Section Effects.

Context {L : Type} (E : Env L).

Lemma bind_Done {A B} (m : Tx L A) (k : A -> Tx L B) w b w' :
  bind m k w = Done b w' -> exists a w1, m w = Done a w1 /\ k a w1 = Done b w'.
Proof. unfold bind. destruct (m w); [eauto|discriminate]. Qed.

Lemma ret_Done {A} (a b : A) (w w' : World L) :
  ret a w = Done b w' -> b = a /\ w' = w.
Proof. unfold ret. by inversion 1. Qed.

Lemma require_Done b reason (w : World L) u w' :
  require b reason w = Done u w' -> b = true /\ w' = w.
Proof. destruct b; unfold require, ret, revert; by inversion 1. Qed.

Lemma sload_Done {A} (f : Storage -> A) (w : World L) a w' :
  sload f w = Done a w' -> a = f (store w) /\ w' = w.
Proof. unfold sload. by inversion 1. Qed.

Lemma sstore_Done f (w : World L) u w' :
  sstore f w = Done u w' -> w' = mkWorld (f (store w)) (lib w) (events w).
Proof. unfold sstore. by inversion 1. Qed.

Lemma emit_Done e (w : World L) u w' :
  emit e w = Done u w' -> w' = mkWorld (store w) (lib w) (events w ++ [e]).
Proof. unfold emit. by inversion 1. Qed.

Lemma external_Done {A} (f : L -> option (A * L)) w a w' :
  external f w = Done a w' ->
  exists l', f (lib w) = Some (a, l') /\ w' = mkWorld (store w) l' (events w).
Proof.
  unfold external. destruct (f (lib w)) as [[a' l']|]; [|discriminate].
  inversion 1; eauto.
Qed.

Lemma decode_Done {A} (o : option A) (w : World L) a w' :
  decode o w = Done a w' -> o = Some a /\ w' = w.
Proof. destruct o; unfold decode, ret, revert; by inversion 1. Qed.

Lemma index_Done a i (w : World L) v w' :
  index a i w = Done v w' -> a !! i = Some v /\ w' = w.
Proof. unfold index. destruct (a !! i); unfold ret, revert; by inversion 1. Qed.

Lemma checked_add_Done a b (w : World L) v w' :
  checked_add a b w = Done v w' -> a + b <= MAX_UINT256 /\ v = a + b /\ w' = w.
Proof.
  unfold checked_add. destruct (a + b <=? MAX_UINT256) eqn:Hle;
    unfold ret, revert; inversion 1; subst.
  by apply N.leb_le in Hle.
Qed.

Lemma checkSignatures_Some rid ct pf (l : L) (u : unit) l' :
  (fun l' => (tt, l')) <$> FHE_checkSignatures E rid ct pf l = Some (u, l') ->
  FHE_checkSignatures E rid ct pf l = Some l'.
Proof. destruct (FHE_checkSignatures E rid ct pf l); simpl; by inversion 1. Qed.

(** Inversion of a transaction that went through, one primitive at a time. *)
Ltac tx_inv :=
  repeat match goal with
    | H : bind _ _ _ = Done _ _ |- _ =>
        apply bind_Done in H; destruct H as (? & ? & ? & H)
    | H : ret _ _ = Done _ _ |- _ => apply ret_Done in H; destruct H as [-> ->]
    | H : require _ _ _ = Done _ _ |- _ =>
        apply require_Done in H; destruct H as [? ->]
    | H : sload _ _ = Done _ _ |- _ => apply sload_Done in H; destruct H as [-> ->]
    | H : sstore _ _ = Done _ _ |- _ => apply sstore_Done in H; subst
    | H : emit _ _ = Done _ _ |- _ => apply emit_Done in H; subst
    | H : external _ _ = Done _ _ |- _ =>
        apply external_Done in H; destruct H as (? & ? & ->)
    | H : decode _ _ = Done _ _ |- _ => apply decode_Done in H; destruct H as [? ->]
    | H : index _ _ _ = Done _ _ |- _ => apply index_Done in H; destruct H as [? ->]
    | H : checked_add _ _ _ = Done _ _ |- _ =>
        apply checked_add_Done in H; destruct H as (? & -> & ->)
    | H : _ <$> FHE_checkSignatures _ _ _ _ _ = Some _ |- _ =>
        apply checkSignatures_Some in H
    end.

Ltac tx_bools :=
  repeat match goal with
    | H : negb _ = true |- _ => apply negb_true_iff in H
    | H : negb _ = false |- _ => apply negb_false_iff in H
    | H : (_ =? _) = false |- _ => apply N.eqb_neq in H
    | H : (_ =? _) = true |- _ => apply N.eqb_eq in H
    end.

Lemma submitEncryptedMetric_Done now o h t (w w' : World L) :
  submitEncryptedMetric now o h t w = Done tt w' ->
  metricCount (store w) + 1 <= MAX_UINT256 /\
  let newId := metricCount (store w) + 1 in
  w' = mkWorld
         (set_revealedMetrics newId (mkRevealedMetric 0 0 0 false)
           (set_encryptedMetrics newId (mkEncryptedMetric newId o h t now)
             (set_metricCount newId (store w))))
         (lib w) (events w ++ [MetricSubmitted newId now]).
Proof.
  unfold submitEncryptedMetric. intros H. tx_inv. by simpl.
Qed.

Lemma requestMetricDecryption_Done m (w w' : World L) :
  requestMetricDecryption E m w = Done tt w' ->
  revealed (revealedMetrics_at (store w) m) = false /\
  exists reqId l',
    let em := encryptedMetrics_at (store w) m in
    FHE_requestDecryption E
      [FHE_toBytes32 E (encryptedOutput em); FHE_toBytes32 E (encryptedHours em);
       FHE_toBytes32 E (encryptedTasks em)]
      handleMetricDecryption_selector (lib w) = Some (reqId, l') /\
    w' = mkWorld (set_requestToMetricId reqId m (store w)) l'
                 (events w ++ [MetricDecryptionRequested m]).
Proof.
  unfold requestMetricDecryption. intros H. tx_inv. tx_bools. simpl in *. eauto.
Qed.

(** The four field assignments amount to one write of the whole struct. *)
Lemma update_revealedMetrics_all k r0 r1 r2 s :
  update_revealedMetrics k (set_revealed true)
    (update_revealedMetrics k (set_tasks r2)
      (update_revealedMetrics k (set_hours r1)
        (update_revealedMetrics k (set_output r0) s)))
  = set_revealedMetrics k (mkRevealedMetric r0 r1 r2 true) s.
Proof.
  unfold update_revealedMetrics, set_revealedMetrics, revealedMetrics_at. simpl.
  rewrite !lookup_insert_eq, !insert_insert_eq. done.
Qed.

Lemma handleMetricDecryption_Done rid ct pf (w w' : World L) :
  handleMetricDecryption E rid ct pf w = Done tt w' ->
  let m := requestToMetricId_at (store w) rid in
  m <> 0 /\
  revealed (revealedMetrics_at (store w) m) = false /\
  exists l0 results r0 r1 r2,
    FHE_checkSignatures E rid ct pf (lib w) = Some l0 /\
    abi_decode_uint256_array E ct = Some results /\
    results !! 0%nat = Some r0 /\ results !! 1%nat = Some r1 /\
    results !! 2%nat = Some r2 /\
    counter_bumped E
      (set_revealedMetrics m (mkRevealedMetric r0 r1 r2 true) (store w)) l0
      (store w') (lib w') /\
    events w' = events w ++ [MetricRevealed m].
Proof.
  unfold handleMetricDecryption. intros H. tx_inv. tx_bools. simpl in *.
  rewrite update_revealedMetrics_all in *.
  do 2 (split; [assumption|]).
  do 5 eexists. do 5 (split; [eassumption|]).
  match goal with
  | H : (if negb ?b then _ else _) _ = Done _ _ |- _ =>
      unfold counter_bumped; destruct b eqn:Hinit; simpl in H; tx_inv; simpl in *
  end.
  - split; [|reflexivity]. do 5 eexists. split; [by split|]. eauto.
  - split; [|reflexivity]. do 5 eexists.
    split; [eexists; split; [eassumption|reflexivity]|]. eauto.
Qed.

Lemma requestCategoryDecryption_Done c (w w' : World L) :
  requestCategoryDecryption E c w = Done tt w' ->
  FHE_isInitialized E (encryptedTaskCounters_at (store w) c) = true /\
  exists reqId l',
    FHE_requestDecryption E [FHE_toBytes32 E (encryptedTaskCounters_at (store w) c)]
      handleCategoryDecryption_selector (lib w) = Some (reqId, l') /\
    w' = mkWorld (set_requestToCategoryHash reqId (keccak256 E c) (store w)) l'
                 (events w ++ [CategoryCountDecryptionRequested c]).
Proof.
  unfold requestCategoryDecryption. intros H. tx_inv. simpl in *. eauto.
Qed.

Lemma handleCategoryDecryption_Done rid ct pf (w w' : World L) :
  handleCategoryDecryption E rid ct pf w = Done tt w' ->
  let h := requestToCategoryHash_at (store w) rid in
  h <> 0 /\
  exists l' count category,
    FHE_checkSignatures E rid ct pf (lib w) = Some l' /\
    abi_decode_uint32 E ct = Some count /\
    categoryFromHash_loop E (taskCategories (store w)) h = Some category /\
    w' = mkWorld (store w) l' (events w ++ [CategoryCountDecrypted category count]).
Proof.
  unfold handleCategoryDecryption, _categoryFromHash. intros H. tx_inv. simpl in *.
  destruct (categoryFromHash_loop _ _ _) eqn:Hloop; [|discriminate].
  tx_inv. tx_bools. simpl. eauto 10.
Qed.

(** [counter_bumped] touches the counter map and the category list only. *)
Lemma counter_bumped_frame s l s' l' :
  counter_bumped E s l s' l' ->
  metricCount s' = metricCount s /\
  encryptedMetrics s' = encryptedMetrics s /\
  revealedMetrics s' = revealedMetrics s /\
  requestToMetricId s' = requestToMetricId s /\
  requestToCategoryHash s' = requestToCategoryHash s.
Proof.
  intros (s1 & l1 & l2 & one & sum & Hinit & _ & _ & ->).
  destruct (FHE_isInitialized E _).
  - destruct Hinit as [-> _]. by simpl.
  - destruct Hinit as (zero & _ & ->). by simpl.
Qed.

(** A transaction either reverts, and the world is as it was, or goes
    through. *)
Lemma transact_cases (w : World L) now c :
  (exists f, exec E now c w = Reverted f /\ transact E w (now, c) = w) \/
  (exec E now c w = Done tt (transact E w (now, c))).
Proof.
  unfold transact. simpl. destruct (exec E now c w) as [[] w'|f]; eauto.
Qed.

End Effects.

(** Case analysis on one transaction: the world is unchanged, or the call is
    one of the five and its effect is known. *)
Ltac step_cases E w now c :=
  let Hstep := fresh "Hstep" in
  destruct (transact_cases E w now c) as [(? & _ & ->)|Hstep];
  [ | destruct c; simpl in Hstep;
      [ apply submitEncryptedMetric_Done in Hstep
      | apply requestMetricDecryption_Done in Hstep
      | apply handleMetricDecryption_Done in Hstep
      | apply requestCategoryDecryption_Done in Hstep
      | apply handleCategoryDecryption_Done in Hstep ] ].

Ltac storage_unfold :=
  unfold encryptedMetrics_at, revealedMetrics_at, encryptedTaskCounters_at,
    requestToMetricId_at, requestToCategoryHash_at, set_metricCount,
    set_encryptedMetrics, set_revealedMetrics, set_encryptedTaskCounters,
    push_taskCategories, set_requestToMetricId, set_requestToCategoryHash in *;
  simpl in *.

(** *** Frame properties of one transaction *)

Section Frame.

Context {L : Type} (E : Env L).

Lemma metricCount_mono (w : World L) tx :
  metricCount (store w) <= metricCount (store (transact E w tx)).
Proof.
  destruct tx as [now c]. step_cases E w now c; [lia|..].
  - destruct Hstep as [_ ->]. simpl. lia.
  - destruct Hstep as (_ & ? & ? & _ & ->). simpl. lia.
  - destruct Hstep as (_ & _ & ? & ? & ? & ? & ? & _ & _ & _ & _ & _ & Hc & _).
    apply counter_bumped_frame in Hc as (-> & _). simpl. lia.
  - destruct Hstep as (_ & ? & ? & _ & ->). simpl. lia.
  - destruct Hstep as (_ & ? & ? & ? & _ & _ & _ & ->). simpl. lia.
Qed.

Lemma stored_transact (w : World L) tx k :
  stored (store w) k -> stored (store (transact E w tx)) k.
Proof. unfold stored. pose proof (metricCount_mono w tx). lia. Qed.

Lemma encryptedMetrics_frame (w : World L) tx k :
  k <= metricCount (store w) ->
  encryptedMetrics_at (store (transact E w tx)) k = encryptedMetrics_at (store w) k.
Proof.
  intros Hk. destruct tx as [now c]. step_cases E w now c; [done|..].
  - destruct Hstep as [_ ->]. storage_unfold.
    rewrite lookup_insert_ne; [done|lia].
  - destruct Hstep as (_ & ? & ? & _ & ->). done.
  - destruct Hstep as (_ & _ & ? & ? & ? & ? & ? & _ & _ & _ & _ & _ & Hc & _).
    apply counter_bumped_frame in Hc as (_ & Hem & _).
    unfold encryptedMetrics_at. by rewrite Hem.
  - destruct Hstep as (_ & ? & ? & _ & ->). done.
  - destruct Hstep as (_ & ? & ? & ? & _ & _ & _ & ->). done.
Qed.

(** Once set, the flag of [k] is only ever cleared by the submission that
    assigns the id [k]. *)
Lemma revealed_stays (w : World L) tx k :
  is_revealed w k = true ->
  is_revealed (transact E w tx) k = true \/
  k = metricCount (store (transact E w tx)) /\ metricCount (store w) < k.
Proof.
  unfold is_revealed. intros Hk. destruct tx as [now c].
  step_cases E w now c; [by left|..].
  - destruct Hstep as [_ ->]. simpl.
    destruct (decide (k = metricCount (store w) + 1)) as [->|Hne].
    + right. lia.
    + left. storage_unfold. by rewrite lookup_insert_ne.
  - destruct Hstep as (_ & ? & ? & _ & ->). by left.
  - destruct Hstep as (_ & Hfalse & ? & ? & r0 & r1 & r2 & _ & _ & _ & _ & _ & Hc & _).
    apply counter_bumped_frame in Hc as (_ & _ & Hrm & _). left.
    unfold revealedMetrics_at in *. rewrite Hrm. simpl.
    destruct (decide (requestToMetricId_at (store w) requestId = k)) as [->|Hne].
    + by rewrite lookup_insert_eq.
    + by rewrite lookup_insert_ne.
  - destruct Hstep as (_ & ? & ? & _ & ->). by left.
  - destruct Hstep as (_ & ? & ? & ? & _ & _ & _ & ->). by left.
Qed.

(** Only [handleMetricDecryption] sets the flag. *)
Lemma unrevealed_stays (w : World L) now c k :
  (forall r ct pf, c <> HandleMetricDecryption r ct pf) ->
  is_revealed w k = false ->
  is_revealed (transact E w (now, c)) k = false.
Proof.
  unfold is_revealed. intros Hc Hk. step_cases E w now c; [done|..].
  - destruct Hstep as [_ ->]. simpl.
    destruct (decide (k = metricCount (store w) + 1)) as [->|Hne]; storage_unfold.
    + by rewrite lookup_insert_eq.
    + by rewrite lookup_insert_ne.
  - destruct Hstep as (_ & ? & ? & _ & ->). done.
  - by destruct (Hc requestId cleartexts proof).
  - destruct Hstep as (_ & ? & ? & _ & ->). done.
  - destruct Hstep as (_ & ? & ? & ? & _ & _ & _ & ->). done.
Qed.

Lemma handleMetricDecryption_revealed (w : World L) rid ct pf :
  requestToMetricId_at (store w) rid <> 0 ->
  is_revealed w (requestToMetricId_at (store w) rid) = true ->
  handleMetricDecryption E rid ct pf w = Reverted (Error "Already revealed").
Proof.
  unfold is_revealed, handleMetricDecryption, bind, sload, require. intros Hm Hr.
  apply N.eqb_neq in Hm. rewrite Hm. simpl. by rewrite Hr.
Qed.

Lemma run_cons (w : World L) tx txs :
  run E w (tx :: txs) = run E (transact E w tx) txs.
Proof. reflexivity. Qed.

Lemma run_metricCount_mono (w : World L) txs :
  metricCount (store w) <= metricCount (store (run E w txs)).
Proof.
  revert w. induction txs as [|tx txs IH]; intros w; [simpl; lia|].
  rewrite run_cons. pose proof (metricCount_mono w tx). specialize (IH (transact E w tx)).
  lia.
Qed.

Lemma not_assigned_during_cons (w : World L) k tx txs :
  not_assigned_during E w k (tx :: txs) ->
  not_assigned_during E (transact E w tx) k txs /\
  ~ (k = metricCount (store (transact E w tx)) /\ metricCount (store w) < k).
Proof.
  unfold not_assigned_during. rewrite run_cons.
  pose proof (metricCount_mono w tx).
  pose proof (run_metricCount_mono (transact E w tx) txs). lia.
Qed.

Lemma reveal_transitions_revealed (w : World L) k txs :
  not_assigned_during E w k txs ->
  is_revealed w k = true -> reveal_transitions E w k txs = 0%nat.
Proof.
  revert w. induction txs as [|tx txs IH]; intros w Hna Hk; [done|].
  apply not_assigned_during_cons in Hna as [Hna Hnot]. simpl. rewrite Hk. simpl.
  apply IH; [done|]. by destruct (revealed_stays w tx k Hk).
Qed.

Lemma reveal_transitions_le_1 (w : World L) k txs :
  not_assigned_during E w k txs -> (reveal_transitions E w k txs <= 1)%nat.
Proof.
  revert w. induction txs as [|tx txs IH]; intros w Hna; [simpl; lia|].
  pose proof Hna as Hna0. apply not_assigned_during_cons in Hna as [Hna Hnot]. simpl.
  destruct (is_revealed w k) eqn:Hk; simpl.
  - specialize (IH _ Hna). lia.
  - destruct (is_revealed (transact E w tx) k) eqn:Hk'.
    + rewrite reveal_transitions_revealed by done. lia.
    + specialize (IH _ Hna). lia.
Qed.

End Frame.

(** *** The revealed flag *)

(** What holds of the flag whatever the library does: a decryption callback
    routed to a metric whose flag is already set reverts with
    "Already revealed" and the whole world is as it was; no call other than
    [handleMetricDecryption] turns a cleared flag on; and along any sequence
    of transactions in which no submission assigns the id, the flag is turned
    on at most once. *)
Theorem revealed_flag_of_assigned_id {L : Type} (E : Env L) (w : World L)
    (now : uint256) (rid : uint256) (ct pf : bytes)
    (c : Call) (k : uint256) (txs : list (uint256 * Call)) :
  (requestToMetricId_at (store w) rid <> 0 ->
   is_revealed w (requestToMetricId_at (store w) rid) = true ->
   handleMetricDecryption E rid ct pf w = Reverted (Error "Already revealed") /\
   transact E w (now, HandleMetricDecryption rid ct pf) = w) /\
  ((forall r ct' pf', c <> HandleMetricDecryption r ct' pf') ->
   is_revealed w k = false ->
   is_revealed (transact E w (now, c)) k = false) /\
  (not_assigned_during E w k txs -> (reveal_transitions E w k txs <= 1)%nat).
Proof.
  split; [|split].
  - intros Hm Hr. pose proof (handleMetricDecryption_revealed E w rid ct pf Hm Hr) as H.
    split; [done|]. unfold transact. simpl. by rewrite H.
  - apply unrevealed_stays.
  - apply reveal_transitions_le_1.
Qed.

Lemma revealed_flag_of_assigned_id_witness :
  (handleMetricDecryption demo_env 0 [Byte.x01; Byte.x02; Byte.x03] [] demo_revealed
     = Reverted (Error "Already revealed") /\
   transact demo_env demo_revealed
     (103, HandleMetricDecryption 0 [Byte.x01; Byte.x02; Byte.x03] []) = demo_revealed) /\
  is_revealed (transact demo_env demo_init (100, SubmitEncryptedMetric 11 12 13)) 1
    = false /\
  (reveal_transitions demo_env demo_submitted 1%N demo_callback_twice <= 1)%nat.
Proof.
  split; [|split].
  - apply (revealed_flag_of_assigned_id demo_env demo_revealed 103 0
             [Byte.x01; Byte.x02; Byte.x03] [] (RequestMetricDecryption 1) 1 []);
      [by vm_compute|reflexivity].
  - apply (revealed_flag_of_assigned_id demo_env demo_init 100 0 [] []
             (SubmitEncryptedMetric 11 12 13) 1 []); [discriminate|reflexivity].
  - apply (revealed_flag_of_assigned_id demo_env demo_submitted
             100 0 [] [] (RequestMetricDecryption 1) 1).
    left. vm_compute. discriminate.
Defined.


(** *** Unknown inputs of the decryption requests *)

Lemma requestCategoryDecryption_unknown {L : Type} (E : Env L) (w : World L) c :
  FHE_isInitialized E (encryptedTaskCounters_at (store w) c) = false ->
  requestCategoryDecryption E c w = Reverted (Error "Category unknown").
Proof.
  intros H. unfold requestCategoryDecryption, bind, sload, require. by rewrite H.
Qed.

(** The flag is the only guard of [requestMetricDecryption]: whatever the
    library accepts for an id whose flag is clear is recorded. *)
Lemma requestMetricDecryption_accepts {L : Type} (E : Env L) (w : World L) m reqId l' :
  is_revealed w m = false ->
  (let em := encryptedMetrics_at (store w) m in
   FHE_requestDecryption E
     [FHE_toBytes32 E (encryptedOutput em); FHE_toBytes32 E (encryptedHours em);
      FHE_toBytes32 E (encryptedTasks em)]
     handleMetricDecryption_selector (lib w) = Some (reqId, l')) ->
  requestMetricDecryption E m w =
    Done tt (mkWorld (set_requestToMetricId reqId m (store w)) l'
                     (events w ++ [MetricDecryptionRequested m])).
Proof.
  unfold is_revealed. intros Hr Hreq.
  unfold requestMetricDecryption, bind, sload, require, external, sstore, emit.
  rewrite Hr. simpl in *. by rewrite Hreq.
Qed.

Lemma requestMetricDecryption_library_reverts {L : Type} (E : Env L) (w : World L) m :
  is_revealed w m = false ->
  (let em := encryptedMetrics_at (store w) m in
   FHE_requestDecryption E
     [FHE_toBytes32 E (encryptedOutput em); FHE_toBytes32 E (encryptedHours em);
      FHE_toBytes32 E (encryptedTasks em)]
     handleMetricDecryption_selector (lib w) = None) ->
  requestMetricDecryption E m w = Reverted ExternalRevert.
Proof.
  unfold is_revealed. intros Hr Hreq.
  unfold requestMetricDecryption, bind, sload, require, external.
  rewrite Hr. simpl in *. by rewrite Hreq.
Qed.

(** C2. On the freshly deployed contract nothing is stored under id 7, yet
    [requestMetricDecryption 7] is not rejected by the contract.  Whatever the
    library: either the request goes through, for three zero handles, and the
    correlation map binds the request id to metric 7, or the revert is the
    library's own; no assertion of the contract fails.  With the library of
    the examples the request goes through.  (The sibling
    [requestCategoryDecryption] does reject a category it has no counter for,
    see [requestCategoryDecryption_unknown].) *)
Theorem requestMetricDecryption_unknown_id_not_rejected {L : Type} (E : Env L) (l : L) :
  metricCount Storage_init = 0 /\
  encryptedMetrics Storage_init !! 7 = None /\
  ((exists reqId l',
      requestMetricDecryption E 7 (mkWorld Storage_init l []) =
        Done tt (mkWorld (set_requestToMetricId reqId 7 Storage_init) l'
                         [MetricDecryptionRequested 7])) \/
   requestMetricDecryption E 7 (mkWorld Storage_init l []) = Reverted ExternalRevert) /\
  requestMetricDecryption demo_env 7 demo_init =
    Done tt (mkWorld (set_requestToMetricId 0 7 Storage_init) 1
                     [MetricDecryptionRequested 7]).
Proof.
  split; [reflexivity|]. split; [reflexivity|]. split; [|reflexivity].
  set (w := mkWorld Storage_init l []).
  set (em := encryptedMetrics_at (store w) 7).
  destruct (FHE_requestDecryption E
              [FHE_toBytes32 E (encryptedOutput em); FHE_toBytes32 E (encryptedHours em);
               FHE_toBytes32 E (encryptedTasks em)]
              handleMetricDecryption_selector (lib w)) as [[reqId l']|] eqn:Hreq.
  - left. exists reqId, l'.
    by rewrite (requestMetricDecryption_accepts E w 7 reqId l' eq_refl Hreq).
  - right. by apply requestMetricDecryption_library_reverts.
Qed.

(** C1. The revealed flag of one RevealedMetric goes from false to true
    twice: [requestMetricDecryption 1] is accepted before metric 1 exists and
    its callback sets the flag of id 1; the submission that then assigns id 1
    stores the RevealedMetric anew, flag clear; a second request and callback
    set it again. *)
Example revealed_twice_through_unknown_id :
  is_revealed demo_init 1 = false /\
  is_revealed (run demo_env demo_init demo_reveal_before_submit) 1 = true /\
  is_revealed (run demo_env demo_init
                 (demo_reveal_before_submit ++ [demo_submit_1])) 1 = false /\
  is_revealed (run demo_env demo_init
                 (demo_reveal_before_submit ++ [demo_submit_1]
                    ++ demo_reveal_again)) 1 = true /\
  reveal_transitions demo_env demo_init 1
    (demo_reveal_before_submit ++ [demo_submit_1] ++ demo_reveal_again) = 2%nat.
Proof. repeat split; vm_compute; reflexivity. Qed.

(** *** Metric ids *)

Section Ids.

Context {L : Type} (E : Env L).

Lemma submitEncryptedMetric_succeeds now o h t (w : World L) :
  metricCount (store w) < MAX_UINT256 ->
  let newId := metricCount (store w) + 1 in
  submitEncryptedMetric now o h t w =
    Done tt (mkWorld
         (set_revealedMetrics newId (mkRevealedMetric 0 0 0 false)
           (set_encryptedMetrics newId (mkEncryptedMetric newId o h t now)
             (set_metricCount newId (store w))))
         (lib w) (events w ++ [MetricSubmitted newId now])).
Proof.
  intros Hlt. unfold submitEncryptedMetric, bind, sload, checked_add.
  destruct (metricCount (store w) + 1 <=? MAX_UINT256) eqn:Hle; [done|].
  apply N.leb_gt in Hle. lia.
Qed.

Lemma submitted_ids_app log1 log2 :
  submitted_ids (log1 ++ log2) = submitted_ids log1 ++ submitted_ids log2.
Proof.
  induction log1 as [|e log1 IH]; [done|]. destruct e; simpl; by rewrite IH.
Qed.

(** One transaction announces no id and leaves the counter, or announces
    exactly the next id and advances the counter to it. *)
Lemma transact_submitted_ids (w : World L) tx :
  exists new,
    events (transact E w tx) = events w ++ new /\
    (submitted_ids new = [] /\
       metricCount (store (transact E w tx)) = metricCount (store w) \/
     submitted_ids new = [metricCount (store w) + 1] /\
       metricCount (store (transact E w tx)) = metricCount (store w) + 1).
Proof.
  destruct tx as [now c]. step_cases E w now c.
  - exists []. rewrite app_nil_r. auto.
  - destruct Hstep as [_ ->]. eexists. split; [reflexivity|]. right. auto.
  - destruct Hstep as (_ & ? & ? & _ & ->). eexists. split; [reflexivity|]. left. auto.
  - destruct Hstep as (_ & _ & ? & ? & ? & ? & ? & _ & _ & _ & _ & _ & Hc & ->).
    apply counter_bumped_frame in Hc as (-> & _).
    eexists. split; [reflexivity|]. left. auto.
  - destruct Hstep as (_ & ? & ? & _ & ->). eexists. split; [reflexivity|]. left. auto.
  - destruct Hstep as (_ & ? & ? & ? & _ & _ & _ & ->).
    eexists. split; [reflexivity|]. left. auto.
Qed.

Lemma consecutive_from_sorted a n : StronglySorted N.lt (consecutive_from a n).
Proof.
  revert a. induction n as [|n IH]; intros a; simpl; constructor; [apply IH|].
  apply Forall_forall. intros x Hx.
  assert (Hge : forall m b y, In y (consecutive_from b m) -> b <= y).
  { clear. induction m as [|m IHm]; intros b y; simpl; [done|].
    intros [<-|Hy]; [lia|]. apply IHm in Hy. lia. }
  apply list_elem_of_In, Hge in Hx. lia.
Qed.

Lemma run_submitted_ids (w : World L) txs :
  exists new,
    events (run E w txs) = events w ++ new /\
    submitted_ids new =
      consecutive_from (metricCount (store w) + 1)
        (N.to_nat (metricCount (store (run E w txs)) - metricCount (store w))).
Proof.
  revert w. induction txs as [|tx txs IH]; intros w.
  - exists []. simpl. rewrite app_nil_r, N.sub_diag. done.
  - rewrite run_cons.
    destruct (transact_submitted_ids w tx) as (new1 & Hev1 & Hids).
    destruct (IH (transact E w tx)) as (new2 & Hev2 & Hids2).
    pose proof (run_metricCount_mono E (transact E w tx) txs) as Hmono.
    exists (new1 ++ new2). rewrite Hev2, Hev1, <- app_assoc. split; [done|].
    rewrite submitted_ids_app, Hids2.
    destruct Hids as [[-> Hmc]|[-> Hmc]]; rewrite Hmc in *; simpl; [done|].
    replace (N.to_nat (metricCount (store (run E (transact E w tx) txs))
                       - metricCount (store w)))
      with (S (N.to_nat (metricCount (store (run E (transact E w tx) txs))
                         - (metricCount (store w) + 1)))) by lia.
    done.
Qed.

End Ids.

(** C3. [submitEncryptedMetric] assigns increasing ids.  Below the bound of
    [uint256] a call goes through, advances [metricCount] by one, stores the
    EncryptedMetric under the new count with its [id] field equal to it, and
    stores the RevealedMetric there with the flag clear.  Along any sequence
    of transactions the ids announced by the submissions that went through
    are consecutive, starting right after the initial count: each is one
    greater than the one before, so they are strictly increasing. *)
Theorem submitEncryptedMetric_ids_increase {L : Type} (E : Env L) (w : World L)
    (now : uint256) (o h t : euint32) (txs : list (uint256 * Call)) :
  (metricCount (store w) < MAX_UINT256 ->
   exists w',
     let newId := metricCount (store w) + 1 in
     submitEncryptedMetric now o h t w = Done tt w' /\
     metricCount (store w') = newId /\
     encryptedMetrics_at (store w') newId = mkEncryptedMetric newId o h t now /\
     revealedMetrics_at (store w') newId = mkRevealedMetric 0 0 0 false /\
     events w' = events w ++ [MetricSubmitted newId now]) /\
  (exists new,
     events (run E w txs) = events w ++ new /\
     submitted_ids new =
       consecutive_from (metricCount (store w) + 1)
         (N.to_nat (metricCount (store (run E w txs)) - metricCount (store w))) /\
     StronglySorted N.lt (submitted_ids new)).
Proof.
  split.
  - intros Hlt. eexists. simpl. split; [by apply submitEncryptedMetric_succeeds|].
    simpl. storage_unfold. by rewrite !lookup_insert_eq.
  - destruct (run_submitted_ids E w txs) as (new & Hev & Hids).
    exists new. rewrite Hids. eauto using consecutive_from_sorted.
Qed.

Lemma submitEncryptedMetric_ids_increase_witness :
  (exists w',
     submitEncryptedMetric 100 11 12 13 demo_init = Done tt w' /\
     metricCount (store w') = 1 /\
     encryptedMetrics_at (store w') 1 = mkEncryptedMetric 1 11 12 13 100 /\
     revealedMetrics_at (store w') 1 = mkRevealedMetric 0 0 0 false /\
     events w' = [MetricSubmitted 1 100]) /\
  (exists new,
     events (run demo_env demo_init demo_reveal_1) = new /\
     submitted_ids new = [1] /\
     StronglySorted N.lt (submitted_ids new)).
Proof.
  destruct (submitEncryptedMetric_ids_increase demo_env demo_init 100 11 12 13
              demo_reveal_1) as [Hone Hseq].
  split; [apply Hone; reflexivity|exact Hseq].
Defined.

(** *** Stored metrics *)

(** C4. An EncryptedMetric is immutable once created: whatever transactions
    follow, every field of [encryptedMetrics[k]] of a stored id [k] reads as
    it did. *)
Theorem encryptedMetric_immutable {L : Type} (E : Env L) (w : World L)
    (k : uint256) (txs : list (uint256 * Call)) :
  stored (store w) k ->
  encryptedMetrics_at (store (run E w txs)) k = encryptedMetrics_at (store w) k.
Proof.
  revert w. induction txs as [|tx txs IH]; intros w Hk; [done|].
  rewrite run_cons, IH by by apply stored_transact.
  apply encryptedMetrics_frame. unfold stored in Hk. lia.
Qed.

Lemma encryptedMetric_immutable_witness :
  stored (store demo_submitted) 1 /\
  encryptedMetrics_at (store (run demo_env demo_submitted demo_callback_twice)) 1
    = mkEncryptedMetric 1 11 12 13 100.
Proof.
  assert (Hs : stored (store demo_submitted) 1) by (unfold stored; simpl; lia).
  split; [exact Hs|].
  exact (encryptedMetric_immutable demo_env demo_submitted 1 demo_callback_twice Hs).
Defined.

(** *** The request-correlation maps *)

Section Correlation.

Context {L : Type} (E : Env L).

(** No call removes a key of a correlation map, whatever the library does. *)
Lemma correlation_never_pruned (w : World L) tx r :
  (is_Some (requestToMetricId (store w) !! r) ->
   is_Some (requestToMetricId (store (transact E w tx)) !! r)) /\
  (is_Some (requestToCategoryHash (store w) !! r) ->
   is_Some (requestToCategoryHash (store (transact E w tx)) !! r)).
Proof.
  destruct tx as [now c]. step_cases E w now c; [done|..].
  - destruct Hstep as [_ ->]. done.
  - destruct Hstep as (_ & ? & ? & _ & ->). simpl. split; [|done].
    intros Hr. apply lookup_insert_is_Some. destruct (decide (x = r)); auto.
  - destruct Hstep as (_ & _ & ? & ? & ? & ? & ? & _ & _ & _ & _ & _ & Hc & _).
    apply counter_bumped_frame in Hc as (_ & _ & _ & -> & ->). done.
  - destruct Hstep as (_ & ? & ? & _ & ->). simpl. split; [done|].
    intros Hr. apply lookup_insert_is_Some. destruct (decide (x = r)); auto.
  - destruct Hstep as (_ & ? & ? & ? & _ & _ & _ & ->). done.
Qed.

Context (issued : L -> uint256 -> Prop) (Hfresh : fresh_request_ids E issued).

Lemma counter_bumped_issued s l s' l' r :
  counter_bumped E s l s' l' -> issued l r -> issued l' r.
Proof.
  intros (s1 & l1 & l2 & one & sum & Hinit & Hone & Hadd & _) Hr.
  eapply (add_issued E issued Hfresh); [exact Hadd|].
  eapply (asEuint32_issued E issued Hfresh); [exact Hone|].
  destruct (FHE_isInitialized E _).
  - by destruct Hinit as [_ ->].
  - destruct Hinit as (zero & Hzero & _).
    by eapply (asEuint32_issued E issued Hfresh).
Qed.

(** One transaction keeps every binding, and every bound id stays issued. *)
Lemma correlation_step (w : World L) tx :
  bound_ids_issued issued w ->
  bound_ids_issued issued (transact E w tx) /\
  forall r,
    (forall v, requestToMetricId (store w) !! r = Some v ->
               requestToMetricId (store (transact E w tx)) !! r = Some v) /\
    (forall v, requestToCategoryHash (store w) !! r = Some v ->
               requestToCategoryHash (store (transact E w tx)) !! r = Some v).
Proof.
  intros Hinv. destruct tx as [now c]. step_cases E w now c; [done|..].
  - destruct Hstep as [_ ->]. done.
  - destruct Hstep as (_ & reqId & l' & Hreq & ->). simpl in *.
    apply (requestDecryption_fresh E issued Hfresh) in Hreq as (Hnew & Hnow & Hold).
    split.
    + intros r [Hr|Hr]; simpl in *.
      * apply lookup_insert_is_Some in Hr as [<-|[_ Hr]]; auto.
      * auto.
    + intros r. split; [|done]. intros v Hv.
      rewrite lookup_insert_ne; [done|]. intros ->. apply Hnew, Hinv. eauto.
  - destruct Hstep as (_ & _ & l0 & ? & ? & ? & ? & Hsig & _ & _ & _ & _ & Hc & _).
    assert (Hiss : forall r, issued l0 r -> issued (lib (transact E w
              (now, HandleMetricDecryption requestId cleartexts proof))) r)
      by (intros r; exact (counter_bumped_issued _ _ _ _ r Hc)).
    apply counter_bumped_frame in Hc as (_ & _ & _ & Hm & Hh). simpl in *.
    split.
    + intros r Hr. rewrite Hm, Hh in Hr. apply Hiss.
      eapply (checkSignatures_issued E issued Hfresh); [exact Hsig|]. by apply Hinv.
    + intros r. rewrite Hm, Hh. done.
  - destruct Hstep as (_ & reqId & l' & Hreq & ->). simpl in *.
    apply (requestDecryption_fresh E issued Hfresh) in Hreq as (Hnew & Hnow & Hold).
    split.
    + intros r [Hr|Hr]; simpl in *.
      * auto.
      * apply lookup_insert_is_Some in Hr as [<-|[_ Hr]]; auto.
    + intros r. split; [done|]. intros v Hv.
      rewrite lookup_insert_ne; [done|]. intros ->. apply Hnew, Hinv. eauto.
  - destruct Hstep as (_ & l' & ? & ? & Hsig & _ & _ & ->). simpl.
    split; [|done]. intros r Hr. simpl in *.
    eapply (checkSignatures_issued E issued Hfresh); [exact Hsig|]. by apply Hinv.
Qed.

Lemma correlation_run (w : World L) txs :
  bound_ids_issued issued w ->
  forall r,
    (forall v, requestToMetricId (store w) !! r = Some v ->
               requestToMetricId (store (run E w txs)) !! r = Some v) /\
    (forall v, requestToCategoryHash (store w) !! r = Some v ->
               requestToCategoryHash (store (run E w txs)) !! r = Some v).
Proof.
  revert w. induction txs as [|tx txs IH]; intros w Hinv r; [done|].
  rewrite run_cons. destruct (correlation_step w tx Hinv) as [Hinv' Hstep].
  destruct (Hstep r) as [Hm Hh]. destruct (IH _ Hinv' r) as [Hm' Hh']. split; auto.
Qed.

Lemma correlation_never_pruned_run (w : World L) txs r :
  (is_Some (requestToMetricId (store w) !! r) ->
   is_Some (requestToMetricId (store (run E w txs)) !! r)) /\
  (is_Some (requestToCategoryHash (store w) !! r) ->
   is_Some (requestToCategoryHash (store (run E w txs)) !! r)).
Proof.
  revert w. induction txs as [|tx txs IH]; intros w; [done|].
  rewrite run_cons. destruct (correlation_never_pruned w tx r) as [Hm Hh].
  destruct (IH (transact E w tx)) as [Hm' Hh']. split; auto.
Qed.

End Correlation.

Lemma demo_env_fresh : fresh_request_ids demo_env demo_issued.
Proof.
  unfold demo_issued. split; simpl.
  - intros cs sel l r l' [= <- <-]. split; [lia|]. split; [lia|]. intros; lia.
  - by intros n l h l' r [= _ <-].
  - by intros a b l h l' r [= _ <-].
  - by intros rid ct pf l l' r [= <-].
Qed.

Lemma demo_counted_bound_ids_issued : bound_ids_issued demo_issued demo_counted.
Proof.
  assert (Hm : requestToMetricId (store demo_counted) = {[ 0 := 1 ]}) by reflexivity.
  assert (Hh : requestToCategoryHash (store demo_counted) = {[ 1 := 13 ]})
    by reflexivity.
  assert (Hl : lib demo_counted = 2) by reflexivity.
  intros r. rewrite Hm, Hh, Hl. unfold demo_issued.
  intros [[v Hr]|[v Hr]]; apply lookup_singleton_Some in Hr as [<- _]; lia.
Qed.

(** C5. The request-correlation maps are write-once and never pruned.  No
    call removes a request id from either map; and, the library handing out
    each request id once, a binding of a request id to a metric id or to a
    category hash is still the same binding after any sequence of
    transactions, the callbacks that consume it included. *)
Theorem correlation_write_once {L : Type} (E : Env L)
    (issued : L -> uint256 -> Prop) (w : World L)
    (txs : list (uint256 * Call)) (r : uint256) :
  ((is_Some (requestToMetricId (store w) !! r) ->
    is_Some (requestToMetricId (store (run E w txs)) !! r)) /\
   (is_Some (requestToCategoryHash (store w) !! r) ->
    is_Some (requestToCategoryHash (store (run E w txs)) !! r))) /\
  (fresh_request_ids E issued ->
   bound_ids_issued issued w ->
   (forall v, requestToMetricId (store w) !! r = Some v ->
              requestToMetricId (store (run E w txs)) !! r = Some v) /\
   (forall v, requestToCategoryHash (store w) !! r = Some v ->
              requestToCategoryHash (store (run E w txs)) !! r = Some v)).
Proof.
  split; [apply correlation_never_pruned_run|].
  intros Hfresh Hinv. by apply (correlation_run E issued Hfresh).
Qed.

Lemma correlation_write_once_witness :
  requestToMetricId (store (run demo_env demo_counted demo_more)) !! 0 = Some 1 /\
  requestToCategoryHash (store (run demo_env demo_counted demo_more)) !! 1 = Some 13.
Proof.
  split.
  - destruct (correlation_write_once demo_env demo_issued demo_counted demo_more 0)
      as [_ Hkeep].
    destruct (Hkeep demo_env_fresh demo_counted_bound_ids_issued) as [Hm _].
    apply Hm. reflexivity.
  - destruct (correlation_write_once demo_env demo_issued demo_counted demo_more 1)
      as [_ Hkeep].
    destruct (Hkeep demo_env_fresh demo_counted_bound_ids_issued) as [_ Hh].
    apply Hh. reflexivity.
Defined.

(** *** The category counter *)

(** C9. A call of [handleMetricDecryption] that goes through writes the
    decrypted values with the flag set, and adds an encrypted 1 to the counter
    of "TaskCategory": if that counter was uninitialized it is first set to an
    encrypted 0 and "TaskCategory" is appended to the category list.  A call
    of [submitEncryptedMetric] touches neither the counters nor the list. *)
Theorem reveal_bumps_TaskCategory_counter {L : Type} (E : Env L) (w w' : World L)
    (rid : uint256) (ct pf : bytes) :
  handleMetricDecryption E rid ct pf w = Done tt w' ->
  let m := requestToMetricId_at (store w) rid in
  let c := encryptedTaskCounters_at (store w) TaskCategory in
  (exists results r0 r1 r2,
     abi_decode_uint256_array E ct = Some results /\
     results !! 0%nat = Some r0 /\ results !! 1%nat = Some r1 /\
     results !! 2%nat = Some r2 /\
     revealedMetrics_at (store w') m = mkRevealedMetric r0 r1 r2 true) /\
  (exists (l0 l1 l2 : L) (base one sum : euint32),
     FHE_checkSignatures E rid ct pf (lib w) = Some l0 /\
     (if FHE_isInitialized E c
      then base = c /\ l1 = l0 /\
           taskCategories (store w') = taskCategories (store w)
      else FHE_asEuint32 E 0 l0 = Some (base, l1) /\
           taskCategories (store w') = taskCategories (store w) ++ [TaskCategory]) /\
     FHE_asEuint32 E 1 l1 = Some (one, l2) /\
     FHE_add E base one l2 = Some (sum, lib w') /\
     encryptedTaskCounters_at (store w') TaskCategory = sum) /\
  (forall now o h t w0 w1,
     submitEncryptedMetric now o h t w0 = Done tt w1 ->
     encryptedTaskCounters (store w1) = encryptedTaskCounters (store (w0 : World L)) /\
     taskCategories (store w1) = taskCategories (store w0)).
Proof.
  intros Hdone m c. apply handleMetricDecryption_Done in Hdone.
  destruct Hdone as (_ & _ & l0 & results & r0 & r1 & r2
                     & Hsig & Hdec & H0 & H1 & H2 & Hc & _).
  fold m in Hc. split; [|split].
  - exists results, r0, r1, r2. do 4 (split; [done|]).
    apply counter_bumped_frame in Hc as (_ & _ & Hrm & _).
    unfold revealedMetrics_at. rewrite Hrm. simpl. by rewrite lookup_insert_eq.
  - destruct Hc as (s1 & l1 & l2 & one & sum & Hinit & Hone & Hadd & Hs').
    change (encryptedTaskCounters_at
              (set_revealedMetrics m (mkRevealedMetric r0 r1 r2 true) (store w))
              TaskCategory) with c in Hinit.
    destruct (FHE_isInitialized E c) eqn:Hi.
    + destruct Hinit as [-> ->]. exists l0, l0, l2, c, one, sum.
      rewrite Hs'. split; [done|]. split; [done|]. split; [done|]. split; [exact Hadd|].
      storage_unfold. by rewrite lookup_insert_eq.
    + destruct Hinit as (zero & Hzero & ->). exists l0, l1, l2, zero, one, sum.
      rewrite Hs'. split; [done|]. split; [done|]. split; [done|]. split.
      * revert Hadd. storage_unfold. by rewrite lookup_insert_eq.
      * storage_unfold. by rewrite lookup_insert_eq.
  - intros now o h t w0 w1 Hsub.
    apply submitEncryptedMetric_Done in Hsub as [_ ->]. done.
Qed.

Lemma reveal_bumps_TaskCategory_counter_witness :
  let ct := [Byte.x07; Byte.x08; Byte.x05] in
  let m := requestToMetricId_at (store demo_requested) 0 in
  let c := encryptedTaskCounters_at (store demo_requested) TaskCategory in
  handleMetricDecryption demo_env 0 ct [] demo_requested = Done tt demo_revealed /\
  (exists results r0 r1 r2,
     abi_decode_uint256_array demo_env ct = Some results /\
     results !! 0%nat = Some r0 /\ results !! 1%nat = Some r1 /\
     results !! 2%nat = Some r2 /\
     revealedMetrics_at (store demo_revealed) m = mkRevealedMetric r0 r1 r2 true) /\
  (exists (l0 l1 l2 : N) (base one sum : euint32),
     FHE_checkSignatures demo_env 0 ct [] (lib demo_requested) = Some l0 /\
     (if FHE_isInitialized demo_env c
      then base = c /\ l1 = l0 /\
           taskCategories (store demo_revealed) = taskCategories (store demo_requested)
      else FHE_asEuint32 demo_env 0 l0 = Some (base, l1) /\
           taskCategories (store demo_revealed)
             = taskCategories (store demo_requested) ++ [TaskCategory]) /\
     FHE_asEuint32 demo_env 1 l1 = Some (one, l2) /\
     FHE_add demo_env base one l2 = Some (sum, lib demo_revealed) /\
     encryptedTaskCounters_at (store demo_revealed) TaskCategory = sum).
Proof.
  intros ct m c.
  assert (Hdone : handleMetricDecryption demo_env 0 ct [] demo_requested
                  = Done tt demo_revealed) by (vm_compute; reflexivity).
  split; [exact Hdone|].
  destruct (reveal_bumps_TaskCategory_counter demo_env demo_requested demo_revealed
              0 ct [] Hdone) as (Hrev & Hcount & _).
  split; [exact Hrev|exact Hcount].
Defined.

(** C10. A call of [handleCategoryDecryption] that goes through changes no
    state variable of the contract: the storage is what it was, and the
    decoded count leaves the call only in the one event it emits. *)
Theorem handleCategoryDecryption_storage_unchanged {L : Type} (E : Env L)
    (w w' : World L) (rid : uint256) (ct pf : bytes) :
  handleCategoryDecryption E rid ct pf w = Done tt w' ->
  store w' = store w /\
  exists category count,
    abi_decode_uint32 E ct = Some count /\
    events w' = events w ++ [CategoryCountDecrypted category count].
Proof.
  intros Hdone. apply handleCategoryDecryption_Done in Hdone.
  destruct Hdone as (_ & l' & count & category & _ & Hdec & _ & ->). simpl. eauto.
Qed.

Lemma handleCategoryDecryption_storage_unchanged_witness :
  let w' := transact demo_env demo_counted
              (105, HandleCategoryDecryption 1 [Byte.x01] []) in
  handleCategoryDecryption demo_env 1 [Byte.x01] [] demo_counted = Done tt w' /\
  store w' = store demo_counted /\
  exists category count,
    abi_decode_uint32 demo_env [Byte.x01] = Some count /\
    events w' = events demo_counted ++ [CategoryCountDecrypted category count].
Proof.
  intros w'.
  assert (Hdone : handleCategoryDecryption demo_env 1 [Byte.x01] [] demo_counted
                  = Done tt w') by (vm_compute; reflexivity).
  split; [exact Hdone|].
  exact (handleCategoryDecryption_storage_unchanged demo_env demo_counted w'
           1 [Byte.x01] [] Hdone).
Defined.

(** *** Callbacks that are refused *)

Section Refused.

Context {L : Type} (E : Env L).

Lemma handleMetricDecryption_zero (w : World L) rid ct pf :
  requestToMetricId_at (store w) rid = 0 ->
  handleMetricDecryption E rid ct pf w = Reverted (Error "Invalid request").
Proof.
  intros Hm. unfold handleMetricDecryption, bind, sload, require. by rewrite Hm.
Qed.

(** What [handleMetricDecryption] does once both guards and the signature
    check are passed and the cleartexts decode to [results]. *)
Lemma handleMetricDecryption_short (w : World L) rid ct pf l0 results :
  requestToMetricId_at (store w) rid <> 0 ->
  is_revealed w (requestToMetricId_at (store w) rid) = false ->
  FHE_checkSignatures E rid ct pf (lib w) = Some l0 ->
  abi_decode_uint256_array E ct = Some results ->
  (length results < 3)%nat ->
  handleMetricDecryption E rid ct pf w = Reverted (Panic 50).
Proof.
  unfold is_revealed. intros Hm Hr Hsig Hdec Hlen.
  unfold handleMetricDecryption, bind, sload, require, external, decode, index, sstore.
  apply N.eqb_neq in Hm. rewrite Hm. simpl. rewrite Hr. simpl. rewrite Hsig. simpl.
  rewrite Hdec. simpl.
  destruct results as [|r0 [|r1 [|r2 rest]]]; simpl in *; try done. lia.
Qed.

End Refused.

(** X1. A decryption callback whose request id is not bound, or is bound to
    metric id 0, reverts with "Invalid request" whatever the cleartexts and
    the proof, and changes nothing.  [requestMetricDecryption 0] is such a
    binding: when it goes through, the callback for the request it made is
    refused. *)
Theorem handleMetricDecryption_invalid_request {L : Type} (E : Env L)
    (w w' : World L) (now rid : uint256) (ct pf : bytes) :
  (requestToMetricId_at (store w) rid = 0 ->
   handleMetricDecryption E rid ct pf w = Reverted (Error "Invalid request") /\
   transact E w (now, HandleMetricDecryption rid ct pf) = w) /\
  (requestMetricDecryption E 0 w = Done tt w' ->
   exists reqId,
     requestToMetricId (store w') !! reqId = Some 0 /\
     handleMetricDecryption E reqId ct pf w' = Reverted (Error "Invalid request")).
Proof.
  split.
  - intros Hm. pose proof (handleMetricDecryption_zero E w rid ct pf Hm) as H.
    split; [done|]. unfold transact. simpl. by rewrite H.
  - intros Hreq. apply requestMetricDecryption_Done in Hreq.
    destruct Hreq as (_ & reqId & l' & _ & ->). exists reqId.
    assert (Hb : requestToMetricId (set_requestToMetricId reqId 0 (store w)) !! reqId
                 = Some 0) by apply lookup_insert_eq.
    split; [exact Hb|]. apply handleMetricDecryption_zero.
    unfold requestToMetricId_at. simpl in *. by rewrite Hb.
Qed.

Lemma handleMetricDecryption_invalid_request_witness :
  (handleMetricDecryption demo_env 5 [] [] demo_init = Reverted (Error "Invalid request") /\
   transact demo_env demo_init (100, HandleMetricDecryption 5 [] []) = demo_init) /\
  (exists reqId,
     requestToMetricId
       (store (transact demo_env demo_init (100, RequestMetricDecryption 0))) !! reqId
       = Some 0 /\
     handleMetricDecryption demo_env reqId [Byte.x01; Byte.x02; Byte.x03] []
       (transact demo_env demo_init (100, RequestMetricDecryption 0))
       = Reverted (Error "Invalid request")).
Proof.
  split.
  - apply (handleMetricDecryption_invalid_request demo_env demo_init demo_init 100 5
             [] []). reflexivity.
  - apply (handleMetricDecryption_invalid_request demo_env demo_init
             (transact demo_env demo_init (100, RequestMetricDecryption 0)) 100 0
             [Byte.x01; Byte.x02; Byte.x03] []).
    vm_compute. reflexivity.
Defined.

(** X2. A callback that passes both guards and the signature check but whose
    cleartexts decode to fewer than three values fails on the array index
    (panic 0x32); nothing is written, so the flag stays clear and the same
    request can still be delivered. *)
Theorem handleMetricDecryption_too_few_values {L : Type} (E : Env L) (w : World L)
    (now rid : uint256) (ct pf : bytes) (l0 : L) (results : list uint256) :
  requestToMetricId_at (store w) rid <> 0 ->
  is_revealed w (requestToMetricId_at (store w) rid) = false ->
  FHE_checkSignatures E rid ct pf (lib w) = Some l0 ->
  abi_decode_uint256_array E ct = Some results ->
  (length results < 3)%nat ->
  handleMetricDecryption E rid ct pf w = Reverted (Panic 50) /\
  transact E w (now, HandleMetricDecryption rid ct pf) = w.
Proof.
  intros Hm Hr Hsig Hdec Hlen.
  pose proof (handleMetricDecryption_short E w rid ct pf l0 results Hm Hr Hsig Hdec Hlen)
    as H.
  split; [done|]. unfold transact. simpl. by rewrite H.
Qed.

Lemma handleMetricDecryption_too_few_values_witness :
  handleMetricDecryption demo_env 0 [Byte.x07; Byte.x08] [] demo_requested
    = Reverted (Panic 50) /\
  transact demo_env demo_requested (102, HandleMetricDecryption 0 [Byte.x07; Byte.x08] [])
    = demo_requested.
Proof.
  apply (handleMetricDecryption_too_few_values demo_env demo_requested 102 0
           [Byte.x07; Byte.x08] [] 1 [7; 8]).
  - vm_compute. discriminate.
  - vm_compute. reflexivity.
  - reflexivity.
  - reflexivity.
  - simpl. lia.
Defined.


(** *** What is revealed stays *)

Section Revealed.

Context {L : Type} (E : Env L).

Lemma revealedMetrics_frame (w : World L) tx k :
  k <= metricCount (store w) ->
  is_revealed w k = true ->
  revealedMetrics_at (store (transact E w tx)) k = revealedMetrics_at (store w) k.
Proof.
  unfold is_revealed. intros Hk Hr. destruct tx as [now c].
  step_cases E w now c; [done|..].
  - destruct Hstep as [_ ->]. storage_unfold. rewrite lookup_insert_ne; [done|lia].
  - destruct Hstep as (_ & ? & ? & _ & ->). done.
  - destruct Hstep as (_ & Hfalse & ? & ? & r0 & r1 & r2 & _ & _ & _ & _ & _ & Hc & _).
    apply counter_bumped_frame in Hc as (_ & _ & Hrm & _).
    unfold revealedMetrics_at in *. rewrite Hrm. simpl.
    rewrite lookup_insert_ne; [done|]. intros Heq. rewrite Heq in Hfalse. congruence.
  - destruct Hstep as (_ & ? & ? & _ & ->). done.
  - destruct Hstep as (_ & ? & ? & ? & _ & _ & _ & ->). done.
Qed.

Lemma revealedMetrics_run (w : World L) txs k :
  k <= metricCount (store w) ->
  is_revealed w k = true ->
  revealedMetrics_at (store (run E w txs)) k = revealedMetrics_at (store w) k.
Proof.
  revert w. induction txs as [|tx txs IH]; intros w Hk Hr; [done|].
  rewrite run_cons.
  pose proof (revealedMetrics_frame w tx k Hk Hr) as Hstep.
  rewrite IH, Hstep; [done| |].
  - pose proof (metricCount_mono E w tx). lia.
  - unfold is_revealed in *. by rewrite Hstep.
Qed.

Lemma requestMetricDecryption_revealed (w : World L) k :
  is_revealed w k = true ->
  requestMetricDecryption E k w = Reverted (Error "Already revealed").
Proof.
  unfold is_revealed. intros Hr.
  unfold requestMetricDecryption, bind, sload, require. by rewrite Hr.
Qed.

End Revealed.

(** X3. Once a stored metric is revealed it stays revealed with the same
    values: after any further transactions [getRevealedMetric] returns what
    it returned, every new decryption request for the id reverts with
    "Already revealed", and so does every callback routed to it. *)
Theorem revealed_metric_is_final {L : Type} (E : Env L) (w : World L)
    (k : uint256) (txs : list (uint256 * Call)) (rid : uint256) (ct pf : bytes) :
  stored (store w) k ->
  is_revealed w k = true ->
  let w' := run E w txs in
  getRevealedMetric k (store w') = getRevealedMetric k (store w) /\
  requestMetricDecryption E k w' = Reverted (Error "Already revealed") /\
  (requestToMetricId_at (store w') rid = k ->
   handleMetricDecryption E rid ct pf w' = Reverted (Error "Already revealed")).
Proof.
  intros [Hk1 Hk] Hr w'.
  pose proof (revealedMetrics_run E w txs k Hk Hr) as Hsame. fold w' in Hsame.
  assert (Hr' : is_revealed w' k = true) by (unfold is_revealed in *; by rewrite Hsame).
  split; [|split].
  - unfold getRevealedMetric. by rewrite Hsame.
  - by apply requestMetricDecryption_revealed.
  - intros Hrid. apply handleMetricDecryption_revealed; rewrite Hrid; [|done].
    intros ->. by apply N.le_0_r in Hk1.
Qed.

Lemma revealed_metric_is_final_witness :
  getRevealedMetric 1 (store (run demo_env demo_revealed demo_more)) = (7, 8, 5, true) /\
  requestMetricDecryption demo_env 1 (run demo_env demo_revealed demo_more)
    = Reverted (Error "Already revealed") /\
  handleMetricDecryption demo_env 0 [Byte.x01; Byte.x02; Byte.x03] []
    (run demo_env demo_revealed demo_more) = Reverted (Error "Already revealed").
Proof.
  assert (Hs : stored (store demo_revealed) 1)
    by (split; vm_compute; discriminate).
  destruct (revealed_metric_is_final demo_env demo_revealed 1 demo_more 0
              [Byte.x01; Byte.x02; Byte.x03] [] Hs eq_refl) as (Hget & Hreq & Hcb).
  split; [exact Hget|]. split; [exact Hreq|]. apply Hcb. vm_compute. reflexivity.
Defined.

(** *** The one category *)

Section OneCategory.

Context {L : Type} (E : Env L).

(** No transaction writes the counter of a category other than
    "TaskCategory", and the category list only ever grows by that name. *)
Lemma other_counters_frame (w : World L) tx c :
  c <> TaskCategory ->
  encryptedTaskCounters (store (transact E w tx)) !! c
    = encryptedTaskCounters (store w) !! c.
Proof.
  intros Hc. destruct tx as [now call]. step_cases E w now call; [done|..].
  - destruct Hstep as [_ ->]. done.
  - destruct Hstep as (_ & ? & ? & _ & ->). done.
  - destruct Hstep as (_ & _ & ? & ? & ? & ? & ? & _ & _ & _ & _ & _ & Hb & _).
    destruct Hb as (s1 & l1 & l2 & one & sum & Hinit & _ & _ & ->). simpl.
    rewrite lookup_insert_ne by done.
    destruct (FHE_isInitialized E _).
    + destruct Hinit as [-> _]. done.
    + destruct Hinit as (zero & _ & ->). simpl. by rewrite lookup_insert_ne.
  - destruct Hstep as (_ & ? & ? & _ & ->). done.
  - destruct Hstep as (_ & ? & ? & ? & _ & _ & _ & ->). done.
Qed.

Lemma other_counters_run (w : World L) txs c :
  c <> TaskCategory ->
  encryptedTaskCounters (store (run E w txs)) !! c
    = encryptedTaskCounters (store w) !! c.
Proof.
  intros Hc. revert w. induction txs as [|tx txs IH]; intros w; [done|].
  by rewrite run_cons, IH, other_counters_frame.
Qed.

End OneCategory.

(** X4. "TaskCategory" is the only category the contract ever counts: from
    deployment on, the counter of any other category reads as the zero
    handle after any transactions, so, the zero handle being uninitialized,
    every count request for another category reverts with
    "Category unknown". *)
Theorem only_TaskCategory_is_counted {L : Type} (E : Env L) (l : L)
    (txs : list (uint256 * Call)) (c : string) :
  c <> TaskCategory ->
  FHE_isInitialized E 0 = false ->
  let w := run E (deployed l) txs in
  getEncryptedTaskCounter c (store w) = 0 /\
  requestCategoryDecryption E c w = Reverted (Error "Category unknown").
Proof.
  intros Hc Hzero w.
  assert (Hget : getEncryptedTaskCounter c (store w) = 0).
  { unfold getEncryptedTaskCounter, encryptedTaskCounters_at, w.
    by rewrite other_counters_run. }
  split; [exact Hget|].
  apply requestCategoryDecryption_unknown.
  unfold getEncryptedTaskCounter in Hget. by rewrite Hget.
Qed.

Lemma only_TaskCategory_is_counted_witness :
  getEncryptedTaskCounter "Meetings" (store (run demo_env (deployed 0) demo_two_reveals))
    = 0 /\
  requestCategoryDecryption demo_env "Meetings"
    (run demo_env (deployed 0) demo_two_reveals) = Reverted (Error "Category unknown").
Proof.
  apply (only_TaskCategory_is_counted demo_env 0 demo_two_reveals "Meetings");
    [discriminate|reflexivity].
Defined.


(** *** Delivering a category count *)

Section CategoryDelivery.

Context {L : Type} (E : Env L).

Lemma handleCategoryDecryption_succeeds (w : World L) rid ct pf l' count category :
  requestToCategoryHash_at (store w) rid <> 0 ->
  FHE_checkSignatures E rid ct pf (lib w) = Some l' ->
  abi_decode_uint32 E ct = Some count ->
  categoryFromHash_loop E (taskCategories (store w))
    (requestToCategoryHash_at (store w) rid) = Some category ->
  handleCategoryDecryption E rid ct pf w =
    Done tt (mkWorld (store w) l' (events w ++ [CategoryCountDecrypted category count])).
Proof.
  intros Hh Hsig Hdec Hloop.
  unfold handleCategoryDecryption, _categoryFromHash, bind, sload, require, external,
    decode, emit.
  apply N.eqb_neq in Hh. rewrite Hh. simpl. rewrite Hsig. simpl. rewrite Hdec. simpl.
  by rewrite Hloop.
Qed.

Lemma categoryFromHash_loop_TaskCategory cats :
  Forall (eq TaskCategory) cats -> In TaskCategory cats ->
  categoryFromHash_loop E cats (keccak256 E TaskCategory) = Some TaskCategory.
Proof.
  intros Hall Hin. destruct cats as [|c rest]; [done|].
  apply Forall_cons in Hall as [<- _]. simpl. by rewrite N.eqb_refl.
Qed.

Hypothesis Hzero : FHE_isInitialized E 0 = false.

Lemma initialized_written (s : Storage) c :
  FHE_isInitialized E (encryptedTaskCounters_at s c) = true ->
  is_Some (encryptedTaskCounters s !! c).
Proof.
  unfold encryptedTaskCounters_at, euint32.
  match goal with
  | |- context [from_option _ _ ?o] => destruct o eqn:Hc; [eauto|]
  end.
  simpl. rewrite Hzero. discriminate.
Qed.

Lemma category_invariant_step (w : World L) tx :
  category_invariant E (store w) -> category_invariant E (store (transact E w tx)).
Proof.
  intros [Hother Hlisted Honly Hhash]. destruct tx as [now c].
  step_cases E w now c; [done|..].
  - destruct Hstep as [_ ->]. done.
  - destruct Hstep as (_ & ? & ? & _ & ->). done.
  - destruct Hstep as (_ & _ & ? & ? & r0 & r1 & r2 & _ & _ & _ & _ & _ & Hb & _).
    destruct Hb as (s1 & l1 & l2 & one & sum & Hinit & _ & _ & ->).
    set (s0 := set_revealedMetrics _ _ (store w)) in *.
    assert (Hs1 : (forall c, c <> TaskCategory -> encryptedTaskCounters s1 !! c = None) /\
                  In TaskCategory (taskCategories s1) /\
                  Forall (eq TaskCategory) (taskCategories s1) /\
                  requestToCategoryHash s1 = requestToCategoryHash (store w) /\
                  (forall y, In y (taskCategories (store w)) -> In y (taskCategories s1))).
    { destruct (FHE_isInitialized E (encryptedTaskCounters_at s0 TaskCategory)) eqn:Hi.
      - destruct Hinit as [-> _]. subst s0. simpl. repeat split; try done.
        apply Hlisted. by apply initialized_written in Hi.
      - destruct Hinit as (zero & _ & ->). subst s0. simpl. repeat split.
        + intros c Hc. rewrite lookup_insert_ne by done. by apply Hother.
        + apply in_or_app. right. by left.
        + apply Forall_app. split; [done|]. by constructor.
        + intros y Hy. apply in_or_app. by left. }
    destruct Hs1 as (Ho & Hin & Hall & Hsame & Hgrow). split; simpl.
    + intros c Hc. rewrite lookup_insert_ne by done. by apply Ho.
    + done.
    + done.
    + intros r h Hr. rewrite Hsame in Hr. destruct (Hhash r h Hr). auto.
  - destruct Hstep as (Hi & reqId & l' & _ & ->). split; simpl; try done.
    intros r h Hr.
    assert (Hc : category = TaskCategory).
    { destruct (decide (category = TaskCategory)) as [|Hne]; [done|].
      apply initialized_written in Hi. rewrite (Hother _ Hne) in Hi.
      by destruct Hi. }
    subst category.
    assert (Hin : In TaskCategory (taskCategories (store w))).
    { apply Hlisted. by apply initialized_written in Hi. }
    destruct (decide (reqId = r)) as [->|Hne].
    + rewrite lookup_insert_eq in Hr. by injection Hr as <-.
    + rewrite lookup_insert_ne in Hr by done. by apply (Hhash r).
  - destruct Hstep as (_ & ? & ? & ? & _ & _ & _ & ->). done.
Qed.

Lemma category_invariant_run (w : World L) txs :
  category_invariant E (store w) -> category_invariant E (store (run E w txs)).
Proof.
  revert w. induction txs as [|tx txs IH]; intros w Hinv; [done|].
  rewrite run_cons. by apply IH, category_invariant_step.
Qed.

Lemma category_invariant_deployed (l : L) : category_invariant E (store (deployed l)).
Proof. split; simpl; try done. by intros [? ?]. Qed.

End CategoryDelivery.

(** X5. The revert "Category not found" cannot happen after deployment: the
    zero handle being uninitialized, a callback for a bound category request
    whose signatures check and whose count decodes always goes through, and
    the category it reports is "TaskCategory". *)
Theorem category_callback_is_delivered {L : Type} (E : Env L) (l l' : L)
    (txs : list (uint256 * Call)) (rid : uint256) (ct pf : bytes) (count : N) :
  FHE_isInitialized E 0 = false ->
  let w := run E (deployed l) txs in
  requestToCategoryHash_at (store w) rid <> 0 ->
  FHE_checkSignatures E rid ct pf (lib w) = Some l' ->
  abi_decode_uint32 E ct = Some count ->
  handleCategoryDecryption E rid ct pf w =
    Done tt (mkWorld (store w) l'
               (events w ++ [CategoryCountDecrypted TaskCategory count])).
Proof.
  intros Hzero w Hh Hsig Hdec.
  pose proof (category_invariant_run E Hzero (deployed l) txs
                (category_invariant_deployed E l)) as [_ _ Honly Hhash].
  fold w in Honly, Hhash.
  apply handleCategoryDecryption_succeeds; try done.
  unfold requestToCategoryHash_at in *.
  destruct (requestToCategoryHash (store w) !! rid) as [h|] eqn:Hr; [|done].
  simpl in *. destruct (Hhash rid h Hr) as [-> Hin].
  by apply categoryFromHash_loop_TaskCategory.
Qed.

Lemma category_callback_is_delivered_witness :
  let w := run demo_env (deployed 0) (removelast demo_two_reveals) in
  handleCategoryDecryption demo_env 3 [Byte.x02] [] w =
    Done tt (mkWorld (store w) 4
               (events w ++ [CategoryCountDecrypted TaskCategory 2])).
Proof.
  intros w.
  assert (Hh : requestToCategoryHash_at (store w) 3 <> 0) by (vm_compute; discriminate).
  assert (Hsig : FHE_checkSignatures demo_env 3 [Byte.x02] [] (lib w) = Some 4)
    by (vm_compute; reflexivity).
  exact (category_callback_is_delivered demo_env 0 4 (removelast demo_two_reveals) 3
           [Byte.x02] [] 2 eq_refl Hh Hsig eq_refl).
Defined.

(** X6. A category callback does not use its request up: once one has gone
    through, the same callback goes through again, with the same event,
    whenever the library accepts the signatures again. *)
Theorem category_callback_can_be_replayed {L : Type} (E : Env L) (w w' : World L)
    (rid : uint256) (ct pf : bytes) (l'' : L) :
  handleCategoryDecryption E rid ct pf w = Done tt w' ->
  FHE_checkSignatures E rid ct pf (lib w') = Some l'' ->
  exists category count,
    events w' = events w ++ [CategoryCountDecrypted category count] /\
    handleCategoryDecryption E rid ct pf w' =
      Done tt (mkWorld (store w') l''
                 (events w' ++ [CategoryCountDecrypted category count])).
Proof.
  intros Hdone Hsig. apply handleCategoryDecryption_Done in Hdone.
  destruct Hdone as (Hh & l' & count & category & _ & Hdec & Hloop & ->).
  exists category, count. split; [done|].
  by apply handleCategoryDecryption_succeeds.
Qed.

Lemma category_callback_can_be_replayed_witness :
  let w := run demo_env (deployed 0) (removelast demo_two_reveals) in
  let w' := run demo_env (deployed 0) demo_two_reveals in
  handleCategoryDecryption demo_env 3 [Byte.x02] [] w = Done tt w' /\
  exists category count,
    events w' = events w ++ [CategoryCountDecrypted category count] /\
    handleCategoryDecryption demo_env 3 [Byte.x02] [] w' =
      Done tt (mkWorld (store w') 4
                 (events w' ++ [CategoryCountDecrypted category count])).
Proof.
  intros w w'.
  assert (Hdone : handleCategoryDecryption demo_env 3 [Byte.x02] [] w = Done tt w')
    by (vm_compute; reflexivity).
  assert (Hsig : FHE_checkSignatures demo_env 3 [Byte.x02] [] (lib w') = Some 4)
    by (vm_compute; reflexivity).
  split; [exact Hdone|].
  exact (category_callback_can_be_replayed demo_env w w' 3 [Byte.x02] [] 4 Hdone Hsig).
Defined.


(** *** The shape of the metric map *)

Section Dense.

Context {L : Type} (E : Env L).

Lemma ids_dense_step (w : World L) tx :
  ids_dense (store w) -> ids_dense (store (transact E w tx)).
Proof.
  intros Hinv. destruct tx as [now c]. step_cases E w now c; [done|..].
  - destruct Hstep as [Hle ->]. intros k. unfold stored. simpl.
    destruct (decide (k = metricCount (store w) + 1)) as [->|Hne].
    + rewrite lookup_insert_eq. split.
      * split; [intros _; lia|eauto].
      * by intros em [= <-].
    + rewrite lookup_insert_ne by done. destruct (Hinv k) as [Hdom Hid].
      split; [|done]. rewrite Hdom. unfold stored. lia.
  - destruct Hstep as (_ & ? & ? & _ & ->). done.
  - destruct Hstep as (_ & _ & ? & ? & ? & ? & ? & _ & _ & _ & _ & _ & Hb & _).
    apply counter_bumped_frame in Hb as (Hmc & Hem & _).
    intros k. unfold stored. rewrite Hmc, Hem. apply Hinv.
  - destruct Hstep as (_ & ? & ? & _ & ->). done.
  - destruct Hstep as (_ & ? & ? & ? & _ & _ & _ & ->). done.
Qed.

Lemma ids_dense_run (w : World L) txs :
  ids_dense (store w) -> ids_dense (store (run E w txs)).
Proof.
  revert w. induction txs as [|tx txs IH]; intros w Hinv; [done|].
  rewrite run_cons. by apply IH, ids_dense_step.
Qed.

Lemma ids_dense_deployed (l : L) : ids_dense (store (deployed l)).
Proof.
  intros k. unfold stored. simpl. split; [|done].
  rewrite lookup_empty. split; [by intros [? ?]|lia].
Qed.

End Dense.

(** X7. After any transactions since deployment the EncryptedMetric map holds
    exactly the ids 1 .. metricCount: a stored id has its EncryptedMetric,
    whose [id] field is that id, and every other id reads as the zero
    struct, zero handles included. *)
Theorem stored_ids_are_dense {L : Type} (E : Env L) (l : L)
    (txs : list (uint256 * Call)) (k : uint256) :
  let s := store (run E (deployed l) txs) in
  (stored s k ->
   exists em, encryptedMetrics s !! k = Some em /\ id em = k) /\
  (~ stored s k -> encryptedMetrics_at s k = EncryptedMetric_zero).
Proof.
  intros s.
  destruct (ids_dense_run E (deployed l) txs (ids_dense_deployed l) k) as [Hdom Hid].
  fold s in Hdom, Hid. split.
  - intros Hk. apply Hdom in Hk as [em Hem]. eauto.
  - intros Hk. unfold encryptedMetrics_at.
    destruct (encryptedMetrics s !! k) as [em|] eqn:Hem; [|done].
    destruct Hk. apply Hdom. eauto.
Qed.

Lemma stored_ids_are_dense_witness :
  let s := store (run demo_env (deployed 0) demo_two_reveals) in
  (exists em, encryptedMetrics s !! 2 = Some em /\ id em = 2) /\
  encryptedMetrics_at s 3 = EncryptedMetric_zero.
Proof.
  intros s. split.
  - apply (stored_ids_are_dense demo_env 0 demo_two_reveals 2).
    split; vm_compute; discriminate.
  - apply (stored_ids_are_dense demo_env 0 demo_two_reveals 3).
    intros [_ H]. vm_compute in H. by apply H.
Defined.

(** *** What the counter counts *)

Section Counting.

Context {L : Type} (E : Env L) (plain : euint32 -> N).
Hypothesis Hlib : counting_library E plain.

Lemma revealed_count_app log1 log2 :
  revealed_count (log1 ++ log2) = revealed_count log1 + revealed_count log2.
Proof.
  induction log1 as [|e log1 IH]; [done|]. destruct e; simpl; rewrite IH; lia.
Qed.

Lemma counts_reveals_step (w : World L) tx :
  counts_reveals E plain w -> counts_reveals E plain (transact E w tx).
Proof.
  unfold counts_reveals. intros Hinv. destruct tx as [now c].
  step_cases E w now c; [done|..].
  - destruct Hstep as [_ ->]. simpl. rewrite revealed_count_app. simpl.
    by rewrite N.add_0_r.
  - destruct Hstep as (_ & ? & ? & _ & ->). simpl. rewrite revealed_count_app. simpl.
    by rewrite N.add_0_r.
  - destruct Hstep as (_ & _ & l0 & ? & r0 & r1 & r2 & _ & _ & _ & _ & _ & Hb & ->).
    destruct Hb as (s1 & l1 & l2 & one & sum & Hinit & Hone & Hadd & ->).
    rewrite revealed_count_app. simpl revealed_count.
    set (n := revealed_count (events w)) in *.
    change (encryptedTaskCounters_at (set_revealedMetrics _ _ (store w)) TaskCategory)
      with (encryptedTaskCounters_at (store w) TaskCategory) in Hinit.
    set (c := encryptedTaskCounters_at (store w) TaskCategory) in *.
    apply (asEuint32_plain E plain Hlib) in Hone as [Hone_i Hone_p].
    assert (Hsum : encryptedTaskCounters_at
                     (set_encryptedTaskCounters TaskCategory sum s1) TaskCategory = sum)
      by (unfold encryptedTaskCounters_at; simpl; by rewrite lookup_insert_eq).
    rewrite Hsum. left. split; [lia|].
    destruct (FHE_isInitialized E c) eqn:Hi.
    + destruct Hinit as [-> _].
      change (encryptedTaskCounters_at (set_revealedMetrics _ _ (store w)) TaskCategory)
        with c in Hadd.
      destruct Hinv as [(_ & _ & Hplain)|[Hc0 _]].
      * apply (add_plain E plain Hlib) in Hadd as [Hs_i Hs_p]; [|done..].
        split; [done|]. rewrite Hs_p, Hplain, Hone_p.
        rewrite <- N.Div0.add_mod. done.
      * rewrite Hc0 in Hi. rewrite (zero_uninitialized E plain Hlib) in Hi. done.
    + destruct Hinit as (zero & Hzero & ->).
      apply (asEuint32_plain E plain Hlib) in Hzero as [Hz_i Hz_p].
      assert (Hat : encryptedTaskCounters_at
                      (push_taskCategories TaskCategory
                         (set_encryptedTaskCounters TaskCategory zero
                            (set_revealedMetrics
                               (requestToMetricId_at (store w) requestId)
                               (mkRevealedMetric r0 r1 r2 true) (store w))))
                      TaskCategory = zero)
        by (unfold encryptedTaskCounters_at; simpl; by rewrite lookup_insert_eq).
      rewrite Hat in Hadd.
      apply (add_plain E plain Hlib) in Hadd as [Hs_i Hs_p]; [|done..].
      split; [done|]. rewrite Hs_p, Hz_p, Hone_p.
      destruct Hinv as [(_ & Hi' & _)|[_ Hn0]]; [congruence|].
      rewrite Hn0. done.
  - destruct Hstep as (_ & ? & ? & _ & ->). simpl. rewrite revealed_count_app. simpl.
    by rewrite N.add_0_r.
  - destruct Hstep as (_ & ? & ? & ? & _ & _ & _ & ->). simpl.
    rewrite revealed_count_app. simpl. by rewrite N.add_0_r.
Qed.

Lemma counts_reveals_run (w : World L) txs :
  counts_reveals E plain w -> counts_reveals E plain (run E w txs).
Proof.
  revert w. induction txs as [|tx txs IH]; intros w Hinv; [done|].
  rewrite run_cons. by apply IH, counts_reveals_step.
Qed.

End Counting.

(** X8. The "TaskCategory" counter counts the reveals.  With a library whose
    handles add up as 32-bit values, after any transactions since deployment
    the counter is the zero handle if no metric was revealed, and otherwise
    an initialized handle whose plaintext is the number of [MetricRevealed]
    events modulo 2^32. *)
Theorem counter_counts_reveals {L : Type} (E : Env L) (plain : euint32 -> N)
    (l : L) (txs : list (uint256 * Call)) :
  counting_library E plain ->
  let w := run E (deployed l) txs in
  let c := getEncryptedTaskCounter TaskCategory (store w) in
  let n := revealed_count (events w) in
  (n = 0 -> c = 0) /\
  (n <> 0 -> FHE_isInitialized E c = true /\ plain c = n mod 2 ^ 32).
Proof.
  intros Hlib w c n.
  assert (Hinit : counts_reveals E plain (deployed l)) by (right; done).
  pose proof (counts_reveals_run E plain Hlib (deployed l) txs Hinit) as Hinv.
  unfold counts_reveals in Hinv. fold w in Hinv.
  change (encryptedTaskCounters_at (store w) TaskCategory) with c in Hinv.
  fold n in Hinv. split.
  - intros Hn. by destruct Hinv as [(Hn' & _)|[Hc _]].
  - intros Hn. by destruct Hinv as [(_ & Hi & Hp)|[_ Hn0]].
Qed.

Lemma demo_env_counting : counting_library demo_env demo_plain.
Proof.
  unfold demo_plain. split; simpl.
  - reflexivity.
  - intros n l h l' [= <- _]. split.
    + apply negb_true_iff, N.eqb_neq. lia.
    + f_equal. lia.
  - intros a b l h l' [= <- _] Ha Hb.
    apply negb_true_iff, N.eqb_neq in Ha, Hb. split.
    + apply negb_true_iff, N.eqb_neq. lia.
    + rewrite <- N.Div0.add_mod. f_equal. lia.
Qed.

Lemma counter_counts_reveals_witness :
  let w := run demo_env (deployed 0) demo_two_reveals in
  revealed_count (events w) = 2 /\
  FHE_isInitialized demo_env (getEncryptedTaskCounter TaskCategory (store w)) = true /\
  demo_plain (getEncryptedTaskCounter TaskCategory (store w)) = 2.
Proof.
  intros w.
  assert (Hn : revealed_count (events w) = 2) by (vm_compute; reflexivity).
  split; [exact Hn|].
  destruct (counter_counts_reveals demo_env demo_plain 0 demo_two_reveals
              demo_env_counting) as [_ Hpos].
  fold w in Hpos. destruct Hpos as [Hi Hp]; [rewrite Hn; discriminate|].
  split; [exact Hi|]. rewrite Hp, Hn. reflexivity.
Defined.


(** *** Request ids of the two kinds *)

Section Kinds.

Context {L : Type} (E : Env L).
Context (issued : L -> uint256 -> Prop) (Hfresh : fresh_request_ids E issued).

Lemma maps_disjoint_step (w : World L) tx :
  bound_ids_issued issued w -> maps_disjoint (store w) ->
  maps_disjoint (store (transact E w tx)).
Proof.
  intros Hinv Hdis. destruct tx as [now c]. step_cases E w now c; [done|..].
  - destruct Hstep as [_ ->]. done.
  - destruct Hstep as (_ & reqId & l' & Hreq & ->). simpl in *.
    apply (requestDecryption_fresh E issued Hfresh) in Hreq as (Hnew & _ & _).
    intros r Hm Hh. simpl in *.
    apply lookup_insert_is_Some in Hm as [<-|[_ Hm]]; [|by apply (Hdis r)].
    apply Hnew, Hinv. auto.
  - destruct Hstep as (_ & _ & ? & ? & ? & ? & ? & _ & _ & _ & _ & _ & Hb & _).
    apply counter_bumped_frame in Hb as (_ & _ & _ & Hm & Hh).
    intros r. rewrite Hm, Hh. apply Hdis.
  - destruct Hstep as (_ & reqId & l' & Hreq & ->). simpl in *.
    apply (requestDecryption_fresh E issued Hfresh) in Hreq as (Hnew & _ & _).
    intros r Hm Hh. simpl in *.
    apply lookup_insert_is_Some in Hh as [<-|[_ Hh]]; [|by apply (Hdis r)].
    apply Hnew, Hinv. auto.
  - destruct Hstep as (_ & ? & ? & ? & _ & _ & _ & ->). done.
Qed.

Lemma maps_disjoint_run (w : World L) txs :
  bound_ids_issued issued w -> maps_disjoint (store w) ->
  maps_disjoint (store (run E w txs)).
Proof.
  revert w. induction txs as [|tx txs IH]; intros w Hinv Hdis; [done|].
  rewrite run_cons. apply IH.
  - by apply (correlation_step E issued Hfresh).
  - by apply maps_disjoint_step.
Qed.

End Kinds.

(** X9. A request id serves one kind of callback only.  The library handing
    out each request id once, after any transactions since deployment no
    request id is bound in both correlation maps: the category callback on
    the id of a metric request reverts with "Unknown request", and the metric
    callback on the id of a category request reverts with "Invalid
    request". *)
Theorem callback_of_the_wrong_kind_is_refused {L : Type} (E : Env L)
    (issued : L -> uint256 -> Prop) (l : L) (txs : list (uint256 * Call))
    (rid : uint256) (ct pf : bytes) :
  fresh_request_ids E issued ->
  let w := run E (deployed l) txs in
  (is_Some (requestToMetricId (store w) !! rid) ->
   handleCategoryDecryption E rid ct pf w = Reverted (Error "Unknown request")) /\
  (is_Some (requestToCategoryHash (store w) !! rid) ->
   handleMetricDecryption E rid ct pf w = Reverted (Error "Invalid request")).
Proof.
  intros Hfresh w.
  assert (Hinv : bound_ids_issued issued (deployed l)).
  { intros r [[v Hr]|[v Hr]]; simpl in Hr; by rewrite lookup_empty in Hr. }
  assert (Hdis0 : maps_disjoint (store (deployed l))).
  { intros r [v Hr]. simpl in Hr. by rewrite lookup_empty in Hr. }
  pose proof (maps_disjoint_run E issued Hfresh (deployed l) txs Hinv Hdis0) as Hdis.
  fold w in Hdis. split.
  - intros Hm.
    assert (Hh : requestToCategoryHash_at (store w) rid = 0).
    { unfold requestToCategoryHash_at.
      destruct (requestToCategoryHash (store w) !! rid) eqn:Hr; [|done].
      destruct (Hdis rid Hm). eauto. }
    unfold handleCategoryDecryption, bind, sload, require. by rewrite Hh.
  - intros Hh. apply handleMetricDecryption_zero.
    unfold requestToMetricId_at.
    destruct (requestToMetricId (store w) !! rid) eqn:Hr; [|done].
    destruct (Hdis rid); eauto.
Qed.

Lemma callback_of_the_wrong_kind_is_refused_witness :
  let w := run demo_env (deployed 0) demo_two_reveals in
  handleCategoryDecryption demo_env 2 [Byte.x02] [] w
    = Reverted (Error "Unknown request") /\
  handleMetricDecryption demo_env 3 [Byte.x07; Byte.x08; Byte.x05] [] w
    = Reverted (Error "Invalid request").
Proof.
  intros w.
  destruct (callback_of_the_wrong_kind_is_refused demo_env demo_issued 0
              demo_two_reveals 2 [Byte.x02] [] demo_env_fresh) as [Hcat _].
  destruct (callback_of_the_wrong_kind_is_refused demo_env demo_issued 0
              demo_two_reveals 3 [Byte.x07; Byte.x08; Byte.x05] [] demo_env_fresh)
    as [_ Hmet].
  split; [apply Hcat|apply Hmet]; vm_compute; eauto.
Defined.

(** *** Before the reveal *)

Section Unrevealed.

Context {L : Type} (E : Env L).

Lemma unrevealed_zero_step (w : World L) tx :
  unrevealed_zero (store w) -> unrevealed_zero (store (transact E w tx)).
Proof.
  intros Hinv. destruct tx as [now c]. step_cases E w now c; [done|..].
  - destruct Hstep as [_ ->]. intros k. storage_unfold.
    destruct (decide (k = metricCount (store w) + 1)) as [->|Hne].
    + by rewrite lookup_insert_eq.
    + rewrite lookup_insert_ne by done. apply Hinv.
  - destruct Hstep as (_ & ? & ? & _ & ->). done.
  - destruct Hstep as (_ & _ & ? & ? & r0 & r1 & r2 & _ & _ & _ & _ & _ & Hb & _).
    apply counter_bumped_frame in Hb as (_ & _ & Hrm & _).
    intros k. unfold revealedMetrics_at. rewrite Hrm. simpl.
    destruct (decide (k = requestToMetricId_at (store w) requestId)) as [->|Hne].
    + by rewrite lookup_insert_eq.
    + rewrite lookup_insert_ne by done. apply Hinv.
  - destruct Hstep as (_ & ? & ? & _ & ->). done.
  - destruct Hstep as (_ & ? & ? & ? & _ & _ & _ & ->). done.
Qed.

Lemma unrevealed_zero_run (w : World L) txs :
  unrevealed_zero (store w) -> unrevealed_zero (store (run E w txs)).
Proof.
  revert w. induction txs as [|tx txs IH]; intros w Hinv; [done|].
  rewrite run_cons. by apply IH, unrevealed_zero_step.
Qed.

End Unrevealed.

(** X10. Until a metric is revealed [getRevealedMetric] returns zeros: after
    any transactions since deployment, for every id, stored or not, a clear
    flag comes with the three values zero. *)
Theorem unrevealed_metric_reads_zero {L : Type} (E : Env L) (l : L)
    (txs : list (uint256 * Call)) (k : uint256) :
  let s := store (run E (deployed l) txs) in
  revealed (revealedMetrics_at s k) = false ->
  getRevealedMetric k s = (0, 0, 0, false).
Proof.
  intros s Hr.
  assert (Hinit : unrevealed_zero (store (deployed l))) by (intros k' _; done).
  pose proof (unrevealed_zero_run E (deployed l) txs Hinit k Hr) as Hz.
  fold s in Hz. unfold getRevealedMetric. by rewrite Hz.
Qed.

Lemma unrevealed_metric_reads_zero_witness :
  getRevealedMetric 2
    (store (run demo_env (deployed 0) (firstn 6 demo_two_reveals)))
    = (0, 0, 0, false).
Proof.
  apply (unrevealed_metric_reads_zero demo_env 0 (firstn 6 demo_two_reveals) 2).
  vm_compute. reflexivity.
Defined.

(** *** Reveals and their requests *)

Section Requested.

Context {L : Type} (E : Env L).

Lemma reveals_requested_snoc log e :
  reveals_requested log ->
  (forall k, e = MetricRevealed k -> k <> 0 /\ In (MetricDecryptionRequested k) log) ->
  reveals_requested (log ++ [e]).
Proof.
  intros Hlog He pre k post Heq.
  destruct post as [|p post _] using rev_ind.
  - apply app_inj_tail in Heq as [-> ->]. by apply He.
  - rewrite app_comm_cons, app_assoc in Heq.
    apply app_inj_tail in Heq as [-> _]. by apply (Hlog pre k post).
Qed.

Lemma requested_step (w : World L) tx :
  reveals_requested (events w) /\ bindings_requested w ->
  reveals_requested (events (transact E w tx)) /\
  bindings_requested (transact E w tx).
Proof.
  intros [Hlog Hbound]. destruct tx as [now c]. step_cases E w now c; [done|..].
  - destruct Hstep as [_ ->]. simpl. split.
    + apply reveals_requested_snoc; [done|]. intros k [=].
    + intros r m Hr. apply in_or_app. left. by apply (Hbound r).
  - destruct Hstep as (_ & reqId & l' & _ & ->). simpl. split.
    + apply reveals_requested_snoc; [done|]. intros k [=].
    + intros r m Hr. simpl in Hr. apply in_or_app.
      destruct (decide (reqId = r)) as [->|Hne].
      * rewrite lookup_insert_eq in Hr. injection Hr as ->. right. by left.
      * rewrite lookup_insert_ne in Hr by done. left. by apply (Hbound r).
  - destruct Hstep as (Hm & _ & ? & ? & ? & ? & ? & _ & _ & _ & _ & _ & Hb & Hev).
    apply counter_bumped_frame in Hb as (_ & _ & _ & Hrm & _).
    assert (Hreq : In (MetricDecryptionRequested
                         (requestToMetricId_at (store w) requestId)) (events w)).
    { unfold requestToMetricId_at in *.
      destruct (requestToMetricId (store w) !! requestId) as [m|] eqn:Hr; [|done].
      by apply (Hbound requestId). }
    rewrite Hev. split.
    + apply reveals_requested_snoc; [done|]. by intros k [= <-].
    + intros r m Hr. rewrite Hev. apply in_or_app. left.
      apply (Hbound r). by rewrite Hrm in Hr.
  - destruct Hstep as (_ & ? & ? & _ & ->). simpl. split.
    + apply reveals_requested_snoc; [done|]. intros k [=].
    + intros r m Hr. apply in_or_app. left. by apply (Hbound r).
  - destruct Hstep as (_ & ? & ? & ? & _ & _ & _ & ->). simpl. split.
    + apply reveals_requested_snoc; [done|]. intros k [=].
    + intros r m Hr. apply in_or_app. left. by apply (Hbound r).
Qed.

Lemma requested_run (w : World L) txs :
  reveals_requested (events w) /\ bindings_requested w ->
  reveals_requested (events (run E w txs)) /\ bindings_requested (run E w txs).
Proof.
  revert w. induction txs as [|tx txs IH]; intros w Hinv; [done|].
  rewrite run_cons. by apply IH, requested_step.
Qed.

End Requested.

(** X11. Nothing is revealed without having been requested: in the log of any
    transactions since deployment, every [MetricRevealed] event is for a
    non-zero metric id and comes after a [MetricDecryptionRequested] event
    for the same id, whatever the library does. *)
Theorem reveal_follows_request {L : Type} (E : Env L) (l : L)
    (txs : list (uint256 * Call)) (pre post : list Event) (k : uint256) :
  events (run E (deployed l) txs) = pre ++ MetricRevealed k :: post ->
  k <> 0 /\ In (MetricDecryptionRequested k) pre.
Proof.
  assert (Hinit : reveals_requested (events (deployed l)) /\
                  bindings_requested (deployed l)).
  { split.
    - intros pre' k' post' Heq. simpl in Heq. by destruct pre'.
    - intros r m Hr. simpl in Hr. by rewrite lookup_empty in Hr. }
  destruct (requested_run E (deployed l) txs Hinit) as [Hlog _].
  apply Hlog.
Qed.

Lemma reveal_follows_request_witness :
  In (MetricDecryptionRequested 2)
     (firstn 6 (events (run demo_env (deployed 0) demo_two_reveals))).
Proof.
  assert (Hlog : events (run demo_env (deployed 0) demo_two_reveals)
                 = firstn 6 (events (run demo_env (deployed 0) demo_two_reveals))
                   ++ MetricRevealed 2
                   :: skipn 7 (events (run demo_env (deployed 0) demo_two_reveals)))
    by (vm_compute; reflexivity).
  exact (proj2 (reveal_follows_request demo_env 0 demo_two_reveals _ _ 2 Hlog)).
Defined.

(** *** The category list *)

Section Listed.

Context {L : Type} (E : Env L) (plain : euint32 -> N).
Hypothesis Hlib : counting_library E plain.

Lemma listed_once_step (w : World L) tx :
  listed_once E w -> listed_once E (transact E w tx).
Proof.
  unfold listed_once. intros Hinv. destruct tx as [now c].
  step_cases E w now c; [done|..].
  - destruct Hstep as [_ ->]. simpl. rewrite revealed_count_app. simpl.
    by rewrite N.add_0_r.
  - destruct Hstep as (_ & ? & ? & _ & ->). simpl. rewrite revealed_count_app. simpl.
    by rewrite N.add_0_r.
  - destruct Hstep as (_ & _ & l0 & ? & r0 & r1 & r2 & _ & _ & _ & _ & _ & Hb & ->).
    destruct Hb as (s1 & l1 & l2 & one & sum & Hinit & Hone & Hadd & ->).
    rewrite revealed_count_app. simpl revealed_count.
    change (encryptedTaskCounters_at (set_revealedMetrics _ _ (store w)) TaskCategory)
      with (encryptedTaskCounters_at (store w) TaskCategory) in Hinit.
    set (c := encryptedTaskCounters_at (store w) TaskCategory) in *.
    apply (asEuint32_plain E plain Hlib) in Hone as [Hone_i _].
    assert (Hsum : encryptedTaskCounters_at
                     (set_encryptedTaskCounters TaskCategory sum s1) TaskCategory = sum)
      by (unfold encryptedTaskCounters_at; simpl; by rewrite lookup_insert_eq).
    rewrite Hsum. left. split; [lia|].
    destruct (FHE_isInitialized E c) eqn:Hi.
    + destruct Hinit as [-> _].
      change (encryptedTaskCounters_at (set_revealedMetrics _ _ (store w)) TaskCategory)
        with c in Hadd.
      destruct Hinv as [(_ & _ & Hcats)|[Hc0 _]].
      * apply (add_plain E plain Hlib) in Hadd as [Hs_i _]; [|done..].
        split; [done|]. exact Hcats.
      * rewrite Hc0 in Hi. rewrite (zero_uninitialized E plain Hlib) in Hi. done.
    + destruct Hinit as (zero & Hzero & ->).
      apply (asEuint32_plain E plain Hlib) in Hzero as [Hz_i _].
      assert (Hat : encryptedTaskCounters_at
                      (push_taskCategories TaskCategory
                         (set_encryptedTaskCounters TaskCategory zero
                            (set_revealedMetrics
                               (requestToMetricId_at (store w) requestId)
                               (mkRevealedMetric r0 r1 r2 true) (store w))))
                      TaskCategory = zero)
        by (unfold encryptedTaskCounters_at; simpl; by rewrite lookup_insert_eq).
      rewrite Hat in Hadd.
      apply (add_plain E plain Hlib) in Hadd as [Hs_i _]; [|done..].
      split; [done|].
      destruct Hinv as [(_ & Hi' & _)|(_ & _ & Hnil)]; [congruence|].
      simpl. by rewrite Hnil.
  - destruct Hstep as (_ & ? & ? & _ & ->). simpl. rewrite revealed_count_app. simpl.
    by rewrite N.add_0_r.
  - destruct Hstep as (_ & ? & ? & ? & _ & _ & _ & ->). simpl.
    rewrite revealed_count_app. simpl. by rewrite N.add_0_r.
Qed.

Lemma listed_once_run (w : World L) txs :
  listed_once E w -> listed_once E (run E w txs).
Proof.
  revert w. induction txs as [|tx txs IH]; intros w Hinv; [done|].
  rewrite run_cons. by apply IH, listed_once_step.
Qed.

End Listed.

(** X12. The category list never holds a duplicate.  With a library whose
    fresh and added handles are initialized and whose zero handle is not,
    after any transactions since deployment the list is empty if no metric
    was revealed and is ["TaskCategory"] alone otherwise, however many
    reveals there were. *)
Theorem taskCategories_listed_once {L : Type} (E : Env L) (plain : euint32 -> N)
    (l : L) (txs : list (uint256 * Call)) :
  counting_library E plain ->
  let w := run E (deployed l) txs in
  taskCategories (store w) =
    if revealed_count (events w) =? 0 then [] else [TaskCategory].
Proof.
  intros Hlib w.
  assert (Hinit : listed_once E (deployed l)) by (right; done).
  pose proof (listed_once_run E plain Hlib (deployed l) txs Hinit) as Hinv.
  unfold listed_once in Hinv. fold w in Hinv.
  destruct Hinv as [(Hn & _ & ->)|(_ & -> & ->)]; [|done].
  apply N.eqb_neq in Hn. by rewrite Hn.
Qed.

Lemma taskCategories_listed_once_witness :
  taskCategories (store (run demo_env (deployed 0) demo_two_reveals))
    = [TaskCategory].
Proof.
  assert (Hn : (revealed_count (events (run demo_env (deployed 0) demo_two_reveals))
                =? 0) = false) by (vm_compute; reflexivity).
  pose proof (taskCategories_listed_once demo_env demo_plain 0 demo_two_reveals
                demo_env_counting) as H.
  cbv zeta in H. rewrite Hn in H. exact H.
Defined.

End ContractFacts.

(** ** Properties of the record manager *)

Module FrontendFacts.

Import Frontend.

(** *** The productivity score *)

Lemma in_Z_range lo n z :
  (lo <= z < lo + Z.of_nat n)%Z -> In z (Z_range lo n).
Proof.
  intros Hz. unfold Z_range. apply in_map_iff.
  exists (Z.to_nat (z - lo)). split; [lia|]. apply in_seq. lia.
Qed.

(** Every combination within the form's bounds, one by one. *)
Lemma score_agrees_on_form_range :
  forallb (fun h =>
    forallb (fun t =>
      forallb (fun d => score_agrees h t d) (Z_range distractions_min 21))
      (Z_range tasksCompleted_min 51))
    (Z_range hoursWorked_min 16) = true.
Proof. vm_compute. reflexivity. Qed.

Lemma score_agrees_in_range (h t d : Z) :
  (hoursWorked_min <= h <= hoursWorked_max)%Z ->
  (tasksCompleted_min <= t <= tasksCompleted_max)%Z ->
  (distractions_min <= d <= distractions_max)%Z ->
  score_agrees h t d = true.
Proof.
  unfold hoursWorked_min, hoursWorked_max, tasksCompleted_min, tasksCompleted_max,
    distractions_min, distractions_max.
  intros Hh Ht Hd. pose proof score_agrees_on_form_range as Hall.
  assert (Ih : In h (Z_range 1 16)) by (apply in_Z_range; lia).
  assert (It : In t (Z_range 0 51)) by (apply in_Z_range; lia).
  assert (Id : In d (Z_range 0 21)) by (apply in_Z_range; lia).
  rewrite forallb_forall in Hall. specialize (Hall h Ih).
  rewrite forallb_forall in Hall. specialize (Hall t It).
  rewrite forallb_forall in Hall. exact (Hall d Id).
Qed.

(** *** Loading *)

Section Loading.

Variable parse : bytes -> option json.
Variable ToString : json -> string.
Variable ToNumber : jsval -> Number.

Lemma load_keys_flat_map contract keys list' log :
  load_keys parse ToString contract keys list' log =
    (list' ++ flat_map (fun k => fst (load_key parse ToString contract k)) keys,
     log ++ flat_map (fun k => snd (load_key parse ToString contract k)) keys).
Proof.
  revert list' log. induction keys as [|key rest IH]; intros list' log; simpl.
  - by rewrite !app_nil_r.
  - destruct (load_key parse ToString contract key) as [new errors] eqn:Hkey.
    rewrite IH. simpl. by rewrite <- !app_assoc.
Qed.

(** A key whose blob fails to parse adds nothing and logs the failure. *)
Lemma load_key_parse_failure contract key recordBytes :
  contract ("record_" +:+ ToString key) = Some recordBytes ->
  parse recordBytes = None ->
  (load_key parse ToString contract key = ([], [Error_parsing_record_data key]) \/
   load_key parse ToString contract key = ([], [])).
Proof.
  intros Hget Hparse. unfold load_key. rewrite Hget, Hparse.
  destruct (0 <? length recordBytes)%nat; auto.
Qed.

(** What [loadRecords] sets the list to when the key list parses to the
    array [keys]. *)
Lemma loadRecords_array contract st keysBytes keys :
  contract "record_keys" = Some keysBytes ->
  (0 < length keysBytes)%nat ->
  parse keysBytes = Some (JArray keys) ->
  records (fst (loadRecords parse ToString ToNumber (Got contract) st)) =
    sort ToNumber (flat_map (fun k => fst (load_key parse ToString contract k)) keys).
Proof.
  intros Hget Hlen Hparse. unfold loadRecords. rewrite Hget.
  apply Nat.ltb_lt in Hlen. rewrite Hlen, Hparse. simpl.
  rewrite load_keys_flat_map. done.
Qed.

End Loading.

(** C7. In [loadRecords] a JSON parse failure counts as an empty result.  If
    the blob of "record_keys" fails to parse, the list is set to the empty
    list; if the blob of one key fails to parse, the list is set to what the
    other keys give, in their order, and is the same list as if the key were
    not there.  In both cases the load runs to its end: the list is set and
    both flags are cleared. *)
Theorem loadRecords_parse_failures (parse : bytes -> option json)
    (ToString : json -> string) (ToNumber : jsval -> Number)
    (contract : ReadContract) (st : AppState) (keysBytes recordBytes : bytes)
    (before after : list json) (key : json) :
  contract "record_keys" = Some keysBytes ->
  (parse keysBytes = None ->
   fst (loadRecords parse ToString ToNumber (Got contract) st)
     = mkAppState [] false false) /\
  ((0 < length keysBytes)%nat ->
   parse keysBytes = Some (JArray (before ++ key :: after)) ->
   contract ("record_" +:+ ToString key) = Some recordBytes ->
   parse recordBytes = None ->
   fst (loadRecords parse ToString ToNumber (Got contract) st)
     = mkAppState
         (sort ToNumber
            (flat_map (fun k => fst (load_key parse ToString contract k))
                      (before ++ after)))
         false false).
Proof.
  intros Hget. split.
  - intros Hparse. unfold loadRecords. rewrite Hget, Hparse.
    by destruct (0 <? length keysBytes)%nat.
  - intros Hlen Hparse Hrec Hbad.
    assert (Hkey : fst (load_key parse ToString contract key) = [])
      by (by destruct (load_key_parse_failure parse ToString contract key
                         recordBytes Hrec Hbad) as [-> | ->]).
    pose proof (loadRecords_array parse ToString ToNumber contract st keysBytes
                  (before ++ key :: after) Hget Hlen Hparse) as Hrecords.
    rewrite !flat_map_app in *. simpl in Hrecords. rewrite Hkey in Hrecords.
    simpl in Hrecords. rewrite <- Hrecords.
    unfold loadRecords. rewrite Hget.
    apply Nat.ltb_lt in Hlen. rewrite Hlen, Hparse. simpl.
    by destruct (load_keys _ _ _ _ _ _).
Qed.

Lemma loadRecords_parse_failures_witness :
  fst (loadRecords demo_parse demo_ToString demo_ToNumber
         (Got demo_contract_bad_keys) demo_state)
    = mkAppState [] false false /\
  fst (loadRecords demo_parse demo_ToString demo_ToNumber (Got demo_contract)
         demo_state)
    = mkAppState
        (sort demo_ToNumber
           (flat_map (fun k => fst (load_key demo_parse demo_ToString demo_contract k))
                     ([JString "a"] ++ [JString "c"])))
        false false /\
  length (records (fst (loadRecords demo_parse demo_ToString demo_ToNumber
                          (Got demo_contract) demo_state))) = 2%nat.
Proof.
  split; [|split; [|reflexivity]].
  - destruct (loadRecords_parse_failures demo_parse demo_ToString demo_ToNumber
                demo_contract_bad_keys demo_state [Byte.xff] [] [] [] JNull eq_refl)
      as [Hkeys _].
    apply Hkeys. reflexivity.
  - destruct (loadRecords_parse_failures demo_parse demo_ToString demo_ToNumber
                demo_contract demo_state [Byte.x01] [Byte.xff]
                [JString "a"] [JString "c"] (JString "b") eq_refl)
      as [_ Hrecord].
    apply Hrecord; [simpl; lia|reflexivity..].
Defined.

(** *** Submitting *)

Lemma recordId_not_keys (millis suffix : string) :
  millis +:+ "-" +:+ suffix <> "keys".
Proof.
  destruct millis as [|c0 [|c1 [|c2 [|c3 [|c4 m]]]]]; intros H;
    cbv [String.append] in H; discriminate H.
Qed.

Lemma record_key_not_index (millis suffix : string) :
  "record_" +:+ (millis +:+ "-" +:+ suffix) <> "record_keys".
Proof.
  intros H. injection H as H. exact (recordId_not_keys millis suffix H).
Qed.

(** C8. [submitRecord] makes two writes in a fixed order, the record blob
    under [`record_${recordId}`] first and the rewritten "record_keys" index
    second, and they are not atomic.  If the first write throws, nothing is
    written.  If it goes through and the read of the index or the second
    write then throws, the record blob is stored and the index is what it
    was: the record is orphaned.  If nothing throws and the index is absent,
    both are written. *)
Theorem submitRecord_not_atomic (parse : bytes -> option json)
    (stringify : json -> bytes) (faults : Faults)
    (millis suffix encrypted account : string) (seconds : Number)
    (newRecordData : NewRecordData) (chain : Chain) :
  let recordId := millis +:+ "-" +:+ suffix in
  let blob := stringify (recordData encrypted seconds account newRecordData) in
  let result := submitRecord parse stringify true (Got tt) faults millis suffix
                  encrypted seconds account newRecordData chain in
  (setData_record_throws faults = true ->
   result.1.1 = chain /\ result.1.2 = error) /\
  (setData_record_throws faults = false ->
   getData_keys_throws faults = true \/ setData_keys_throws faults = true ->
   result.1.1 = <["record_" +:+ recordId := blob]> chain /\
   result.1.1 !! "record_keys" = chain !! "record_keys" /\
   result.1.2 = error) /\
  (setData_record_throws faults = false ->
   getData_keys_throws faults = false ->
   setData_keys_throws faults = false ->
   chain !! "record_keys" = None ->
   result.1.1 = <["record_keys" := stringify (JArray [JString recordId])]>
                  (<["record_" +:+ recordId := blob]> chain) /\
   result.1.2 = success).
Proof.
  intros recordId blob result. subst result. unfold submitRecord. cbv zeta.
  pose proof (record_key_not_index millis suffix) as Hne.
  assert (Hkeep : <["record_" +:+ recordId := blob]> chain !! "record_keys"
                  = chain !! "record_keys") by by rewrite lookup_insert_ne.
  subst recordId blob. simpl negb. cbv iota. unfold Frontend.bytes in *.
  split; [|split].
  - intros ->. done.
  - intros -> Hthrows.
    destruct (getData_keys_throws faults); [done|].
    destruct Hthrows as [?| ->]; [done|].
    repeat case_match; done.
  - intros -> -> -> Hnone. rewrite Hkeep, Hnone. done.
Qed.

Lemma submitRecord_not_atomic_witness :
  ((demo_submit (mkFaults true false false)).1.1 = ∅ /\
   (demo_submit (mkFaults true false false)).1.2 = error) /\
  ((demo_submit (mkFaults false false true)).1.1
     = <["record_1700000000000-k3j9x2a" := demo_blob]> ∅ /\
   (demo_submit (mkFaults false false true)).1.1 !! "record_keys" = None /\
   (demo_submit (mkFaults false false true)).1.2 = error) /\
  ((demo_submit (mkFaults false false false)).1.1
     = <["record_keys" :=
           demo_stringify (JArray [JString "1700000000000-k3j9x2a"])]>
         (<["record_1700000000000-k3j9x2a" := demo_blob]> ∅) /\
   (demo_submit (mkFaults false false false)).1.2 = success).
Proof.
  split; [|split].
  - destruct (submitRecord_not_atomic demo_parse demo_stringify
                (mkFaults true false false) "1700000000000" "k3j9x2a" "FHE-e30="
                "0xabc" (of_int 1700000000) demo_form ∅) as (Hfirst & _ & _).
    apply Hfirst. reflexivity.
  - destruct (submitRecord_not_atomic demo_parse demo_stringify
                (mkFaults false false true) "1700000000000" "k3j9x2a" "FHE-e30="
                "0xabc" (of_int 1700000000) demo_form ∅) as (_ & Hbetween & _).
    apply Hbetween; [reflexivity|right; reflexivity].
  - destruct (submitRecord_not_atomic demo_parse demo_stringify
                (mkFaults false false false) "1700000000000" "k3j9x2a" "FHE-e30="
                "0xabc" (of_int 1700000000) demo_form ∅) as (_ & _ & Hboth).
    apply Hboth; reflexivity.
Defined.

(** *** Sorting *)

Section Sorting.

Variable ToNumber : jsval -> Number.

Lemma sort_insert_perm x l : sort_insert ToNumber x l ≡ₚ x :: l.
Proof.
  induction l as [|e rest IH]; simpl; [done|].
  destruct (comes_after ToNumber e x); [done|].
  rewrite IH. apply perm_swap.
Qed.

Lemma sort_fold_perm l acc :
  fold_left (fun sorted x => sort_insert ToNumber x sorted) l acc ≡ₚ l ++ acc.
Proof.
  revert acc. induction l as [|x l IH]; intros acc; simpl; [done|].
  rewrite IH, sort_insert_perm. by rewrite Permutation_middle.
Qed.

Lemma sort_perm l : sort ToNumber l ≡ₚ l.
Proof. unfold sort. rewrite sort_fold_perm. by rewrite app_nil_r. Qed.

(** A rounded negative magnitude is never above zero. *)
Lemma binary_round_negative m e :
  SFltb (S754_zero false) (binary_round prec emax true m e) = false.
Proof.
  unfold binary_round, binary_round_aux.
  destruct (shl_align _ _ _) as [mz ez].
  destruct (shr_fexp _ _ _ _ _) as [mrs' e'].
  destruct (shr_fexp _ _ _ _ _) as [mrs'' e''].
  destruct (shr_m mrs''); [done| |done].
  by destruct (_ <=? _)%Z.
Qed.

Lemma binary_normalize_opp m e :
  SFltb (S754_zero false) (binary_normalize prec emax m e false) = true ->
  SFltb (S754_zero false) (binary_normalize prec emax (- m) e false) = false.
Proof.
  destruct m as [|p|p]; simpl; [done| |].
  - intros _. apply binary_round_negative.
  - by rewrite binary_round_negative.
Qed.

(** The comparator never puts each of two numbers before the other. *)
Lemma number_sub_asymmetric (x y : Number) :
  SFltb (S754_zero false) (number_sub y x) = true ->
  SFltb (S754_zero false) (number_sub x y) = false.
Proof.
  unfold number_sub.
  destruct x as [sx|sx| |sx mx ex], y as [sy|sy| |sy my ey];
    try done; try (by destruct sx, sy); try (by destruct sx); try (by destruct sy).
  simpl. rewrite (Z.min_comm ex ey).
  set (a := cond_Zopp sy _). set (b := cond_Zopp sx _).
  replace (b - a)%Z with (- (a - b))%Z by lia.
  apply binary_normalize_opp.
Qed.

Lemma comes_after_asymmetric a b :
  comes_after ToNumber a b = true -> comes_after ToNumber b a = false.
Proof. unfold comes_after. apply number_sub_asymmetric. Qed.

Lemma sort_insert_sorted x l :
  Sorted (in_order ToNumber) l -> Sorted (in_order ToNumber) (sort_insert ToNumber x l).
Proof.
  induction l as [|e rest IH]; intros Hs; simpl.
  - by repeat constructor.
  - destruct (comes_after ToNumber e x) eqn:Hex.
    + constructor; [done|]. constructor. by apply comes_after_asymmetric.
    + apply Sorted_inv in Hs as [Hrest Hhd]. constructor; [by apply IH|].
      destruct rest as [|e' rest']; simpl.
      * by constructor.
      * destruct (comes_after ToNumber e' x); constructor; [done|].
        by apply HdRel_inv in Hhd.
Qed.

Lemma sort_sorted l : Sorted (in_order ToNumber) (sort ToNumber l).
Proof.
  unfold sort.
  assert (H : forall acc, Sorted (in_order ToNumber) acc ->
              Sorted (in_order ToNumber)
                (fold_left (fun sorted x => sort_insert ToNumber x sorted) l acc)).
  { induction l as [|x l IH]; intros acc Hacc; simpl; [done|].
    by apply IH, sort_insert_sorted. }
  apply H. constructor.
Qed.

End Sorting.


(** X13. Sorting loses and duplicates nothing: when the key list parses to
    an array, the list [loadRecords] sets is a rearrangement of the records
    the keys give, taken in key order. *)
Theorem loadRecords_list_is_permutation (parse : bytes -> option json)
    (ToString : json -> string) (ToNumber : jsval -> Number)
    (contract : ReadContract) (st : AppState) (keysBytes : bytes) (keys : list json) :
  contract "record_keys" = Some keysBytes ->
  (0 < length keysBytes)%nat ->
  parse keysBytes = Some (JArray keys) ->
  records (fst (loadRecords parse ToString ToNumber (Got contract) st)) ≡ₚ
    flat_map (fun k => fst (load_key parse ToString contract k)) keys.
Proof.
  intros Hget Hlen Hparse.
  pose proof (loadRecords_array parse ToString ToNumber contract st keysBytes keys
                Hget Hlen Hparse) as Hrecords.
  unfold ReadContract, bytes in *. rewrite Hrecords.
  apply sort_perm.
Qed.

Lemma loadRecords_list_is_permutation_witness :
  records (fst (loadRecords demo_parse demo_ToString demo_ToNumber (Got demo_contract)
                  demo_state)) ≡ₚ
    flat_map (fun k => fst (load_key demo_parse demo_ToString demo_contract k))
             [JString "a"; JString "b"; JString "c"].
Proof.
  apply (loadRecords_list_is_permutation demo_parse demo_ToString demo_ToNumber
           demo_contract demo_state [Byte.x01]); [reflexivity|simpl; lia|reflexivity].
Defined.

(** X14. When no loaded timestamp converts to NaN, so that the comparator
    orders the records consistently, the list [loadRecords] sets is in the
    comparator's order: no record is directly followed by one whose timestamp
    minus its own is positive, that is, the timestamps descend. *)
Theorem loadRecords_list_in_order (parse : bytes -> option json)
    (ToString : json -> string) (ToNumber : jsval -> Number)
    (contract : ReadContract) (st : AppState) (keysBytes : bytes) (keys : list json) :
  contract "record_keys" = Some keysBytes ->
  (0 < length keysBytes)%nat ->
  parse keysBytes = Some (JArray keys) ->
  Forall (fun r => ToNumber (timestamp r) <> S754_nan)
    (flat_map (fun k => fst (load_key parse ToString contract k)) keys) ->
  Sorted (in_order ToNumber)
    (records (fst (loadRecords parse ToString ToNumber (Got contract) st))).
Proof.
  intros Hget Hlen Hparse _.
  pose proof (loadRecords_array parse ToString ToNumber contract st keysBytes keys
                Hget Hlen Hparse) as Hrecords.
  unfold ReadContract, bytes in *. rewrite Hrecords.
  apply sort_sorted.
Qed.

Lemma loadRecords_list_in_order_witness :
  Sorted (in_order demo_ToNumber)
    (records (fst (loadRecords demo_parse demo_ToString demo_ToNumber
                     (Got demo_contract) demo_state))).
Proof.
  apply (loadRecords_list_in_order demo_parse demo_ToString demo_ToNumber
           demo_contract demo_state [Byte.x01] [JString "a"; JString "b"; JString "c"]);
    [reflexivity|simpl; lia|reflexivity|].
  vm_compute. repeat constructor; discriminate.
Defined.

(** *** Loads that fail *)

(** X15. A load that cannot get the contract, cannot read the key list, or
    reads a key list that parses to something that cannot be iterated (an
    object, a number, a boolean, null) leaves the list as it was and clears
    both flags, unlike a key list that fails to parse, which empties it. *)
Theorem loadRecords_failure_keeps_list (parse : bytes -> option json)
    (ToString : json -> string) (ToNumber : jsval -> Number)
    (contract : ReadContract) (st : AppState) (keysBytes : bytes) (keys : json) :
  fst (loadRecords parse ToString ToNumber Threw st) = mkAppState (records st) false false /\
  fst (loadRecords parse ToString ToNumber Null st) = mkAppState (records st) false false /\
  (contract "record_keys" = None ->
   fst (loadRecords parse ToString ToNumber (Got contract) st)
     = mkAppState (records st) false false) /\
  (contract "record_keys" = Some keysBytes ->
   (0 < length keysBytes)%nat ->
   parse keysBytes = Some keys ->
   iterate keys = None ->
   fst (loadRecords parse ToString ToNumber (Got contract) st)
     = mkAppState (records st) false false).
Proof.
  split; [done|]. split; [done|]. split.
  - intros Hget. unfold loadRecords. by rewrite Hget.
  - intros Hget Hlen Hparse Hiter. unfold loadRecords. rewrite Hget.
    apply Nat.ltb_lt in Hlen. rewrite Hlen, Hparse, Hiter. done.
Qed.

Lemma loadRecords_failure_keeps_list_witness :
  fst (loadRecords demo_parse demo_ToString demo_ToNumber
         (Got (fun key => if String.eqb key "record_keys" then None
                          else demo_contract key)) demo_state)
    = mkAppState (records demo_state) false false /\
  fst (loadRecords demo_parse demo_ToString demo_ToNumber
         (Got (fun key => if String.eqb key "record_keys" then Some [Byte.x02]
                          else demo_contract key)) demo_state)
    = mkAppState (records demo_state) false false.
Proof.
  split.
  - destruct (loadRecords_failure_keeps_list demo_parse demo_ToString demo_ToNumber
                (fun key => if String.eqb key "record_keys" then None
                            else demo_contract key) demo_state [] JNull)
      as (_ & _ & Hread & _).
    apply Hread. reflexivity.
  - destruct (loadRecords_failure_keeps_list demo_parse demo_ToString demo_ToNumber
                (fun key => if String.eqb key "record_keys" then Some [Byte.x02]
                            else demo_contract key) demo_state [Byte.x02] demo_record)
      as (_ & _ & _ & Hiter).
    apply Hiter; [reflexivity|simpl; lia|reflexivity|reflexivity].
Defined.

(** *** Where the records come from *)

Section Provenance.

Variable parse : bytes -> option json.
Variable ToString : json -> string.

Lemma make_record_Some key j r :
  make_record key j = Some r -> id r = key /\ j <> JNull.
Proof.
  unfold make_record. destruct j; simpl; try discriminate;
    intros [= <-]; by split.
Qed.

Lemma load_key_In contract key r :
  In r (fst (load_key parse ToString contract key)) ->
  exists recordBytes recordData,
    contract ("record_" +:+ ToString key) = Some recordBytes /\
    (0 < length recordBytes)%nat /\
    parse recordBytes = Some recordData /\
    make_record key recordData = Some r.
Proof.
  unfold load_key.
  destruct (contract _) as [recordBytes|]; [|done].
  destruct (0 <? length recordBytes)%nat eqn:Hlen; [|done].
  destruct (parse recordBytes) as [recordData|] eqn:Hparse; [|done].
  destruct (make_record key recordData) as [r'|] eqn:Hmk; [|done].
  simpl. intros [<-|[]]. apply Nat.ltb_lt in Hlen. eauto 10.
Qed.

Lemma load_key_length contract key :
  (length (fst (load_key parse ToString contract key)) <= 1)%nat.
Proof.
  unfold load_key. repeat case_match; simpl; lia.
Qed.

Lemma flat_map_load_key_length contract keys :
  (length (flat_map (fun k => fst (load_key parse ToString contract k)) keys)
   <= length keys)%nat.
Proof.
  induction keys as [|k keys IH]; simpl; [lia|].
  rewrite length_app. pose proof (load_key_length contract k). lia.
Qed.

End Provenance.

(** X16. Every record [loadRecords] shows comes from the index: its id is
    one of the keys, the blob stored under that key is not empty and parses
    to a value other than null, and the record's fields are that value's
    properties.  There are never more records than keys. *)
Theorem loadRecords_records_come_from_keys (parse : bytes -> option json)
    (ToString : json -> string) (ToNumber : jsval -> Number)
    (contract : ReadContract) (st : AppState) (keysBytes : bytes) (keys : list json) :
  contract "record_keys" = Some keysBytes ->
  (0 < length keysBytes)%nat ->
  parse keysBytes = Some (JArray keys) ->
  let shown := records (fst (loadRecords parse ToString ToNumber (Got contract) st)) in
  (length shown <= length keys)%nat /\
  forall r, In r shown ->
    In (id r) keys /\
    exists recordBytes recordData,
      contract ("record_" +:+ ToString (id r)) = Some recordBytes /\
      (0 < length recordBytes)%nat /\
      parse recordBytes = Some recordData /\
      recordData <> JNull /\
      make_record (id r) recordData = Some r.
Proof.
  intros Hget Hlen Hparse shown.
  assert (Hperm : shown ≡ₚ
            flat_map (fun k => fst (load_key parse ToString contract k)) keys).
  { pose proof (loadRecords_array parse ToString ToNumber contract st keysBytes
                  keys Hget Hlen Hparse) as Hrecords.
    unfold shown. unfold ReadContract, bytes in *. rewrite Hrecords.
    apply sort_perm. }
  split.
  - rewrite Hperm. apply flat_map_load_key_length.
  - intros r Hr.
    assert (Hin : In r (flat_map (fun k => fst (load_key parse ToString contract k)) keys)).
    { apply list_elem_of_In. rewrite <- Hperm. by apply list_elem_of_In. }
    apply in_flat_map in Hin as (key & Hkey & Hload).
    apply load_key_In in Hload as (recordBytes & recordData & Hb & Hl & Hp & Hmk).
    destruct (make_record_Some key recordData r Hmk) as [Hid Hnull]. subst key.
    split; [done|]. eauto 10.
Qed.

Lemma loadRecords_records_come_from_keys_witness :
  let shown := records (fst (loadRecords demo_parse demo_ToString demo_ToNumber
                               (Got demo_contract) demo_state)) in
  (length shown <= 3)%nat /\
  forall r, In r shown ->
    In (id r) [JString "a"; JString "b"; JString "c"] /\
    exists recordBytes recordData,
      demo_contract ("record_" +:+ demo_ToString (id r)) = Some recordBytes /\
      (0 < length recordBytes)%nat /\
      demo_parse recordBytes = Some recordData /\
      recordData <> JNull /\
      make_record (id r) recordData = Some r.
Proof.
  exact (loadRecords_records_come_from_keys demo_parse demo_ToString demo_ToNumber
           demo_contract demo_state [Byte.x01] [JString "a"; JString "b"; JString "c"]
           eq_refl (Nat.lt_0_succ 0) eq_refl).
Defined.

(** X17. A record counts as remote or as office by its work type, never
    as both, so the two counts together never exceed the number of
    records. *)
Theorem remote_and_office_do_not_overlap (records : list ProductivityRecord)
    (r : ProductivityRecord) :
  (length (remoteRecords records) + length (officeRecords records)
   <= length records)%nat /\
  (In r (remoteRecords records) -> In r (officeRecords records) -> False).
Proof.
  unfold remoteRecords, officeRecords. split.
  - induction records as [|x xs IH]; simpl; [lia|].
    assert (Hx : workType_is "remote" x && workType_is "office" x = false).
    { unfold workType_is. destruct (record_workType x) as [|[]]; try done.
      destruct (String.eqb s "remote") eqn:H1; [|done].
      apply String.eqb_eq in H1. by subst s. }
    destruct (workType_is "remote" x), (workType_is "office" x); simpl in *;
      try discriminate; lia.
  - intros H1 H2. apply filter_In in H1 as [_ H1]. apply filter_In in H2 as [_ H2].
    unfold workType_is in *. destruct (record_workType r) as [|[]]; try done.
    apply String.eqb_eq in H1, H2. congruence.
Qed.

Lemma remote_and_office_do_not_overlap_witness :
  let shown := records (fst (loadRecords demo_parse demo_ToString demo_ToNumber
                               (Got demo_contract) demo_state)) in
  (length (remoteRecords shown) + length (officeRecords shown) <= length shown)%nat /\
  length (officeRecords shown) = 2%nat.
Proof.
  intros shown. split; [|reflexivity].
  apply (remote_and_office_do_not_overlap shown
           (submitted_record "x" "y" (of_int 0) "z" demo_form)).
Defined.


(** *** The key index *)

(** X18. How [submitRecord] rewrites the index when no call throws.  An
    index that parses to an array gets the new id appended.  An index that is
    there but fails to parse is replaced by the list of the new id alone, so
    the older keys are dropped.  An index that parses to anything but an
    array makes the submission fail after the record blob is written, and
    stays as it is. *)
Theorem submitRecord_index_update (parse : bytes -> option json)
    (stringify : json -> bytes)
    (millis suffix encrypted account : string) (seconds : Number)
    (newRecordData : NewRecordData) (chain : Chain)
    (keysBytes : bytes) (old : list json) (other : json) :
  let recordId := millis +:+ "-" +:+ suffix in
  let blob := stringify (recordData encrypted seconds account newRecordData) in
  let result := submitRecord parse stringify true (Got tt)
                  (mkFaults false false false) millis suffix
                  encrypted seconds account newRecordData chain in
  chain !! "record_keys" = Some keysBytes ->
  (0 < length keysBytes)%nat ->
  (parse keysBytes = Some (JArray old) ->
   result.1.1 = <["record_keys" := stringify (JArray (old ++ [JString recordId]))]>
                  (<["record_" +:+ recordId := blob]> chain) /\
   result.1.2 = success) /\
  (parse keysBytes = None ->
   result.1.1 = <["record_keys" := stringify (JArray [JString recordId])]>
                  (<["record_" +:+ recordId := blob]> chain) /\
   result.1.2 = success) /\
  (parse keysBytes = Some other -> push other recordId = None ->
   result.1.1 = <["record_" +:+ recordId := blob]> chain /\
   result.1.1 !! "record_keys" = Some keysBytes /\
   result.1.2 = error).
Proof.
  intros recordId blob result Hget Hlen. subst result. unfold submitRecord. cbv zeta.
  pose proof (record_key_not_index millis suffix) as Hne.
  assert (Hkeep : <["record_" +:+ recordId := blob]> chain !! "record_keys"
                  = Some keysBytes) by by rewrite lookup_insert_ne.
  subst recordId blob. simpl negb. cbv iota. unfold bytes in *.
  rewrite Hkeep. simpl. apply Nat.ltb_lt in Hlen. rewrite Hlen.
  split; [|split].
  - intros ->. done.
  - intros ->. done.
  - intros -> ->. done.
Qed.

Lemma submitRecord_index_update_witness :
  ((demo_submit_to demo_chain_array_index).1.1 !! "record_keys"
     = Some (demo_stringify (JArray [JString "a"; JString "b"; JString "c";
                                     JString "1700000000000-k3j9x2a"])) /\
   (demo_submit_to demo_chain_array_index).1.2 = success) /\
  ((demo_submit_to demo_chain_bad_index).1.1 !! "record_keys"
     = Some (demo_stringify (JArray [JString "1700000000000-k3j9x2a"])) /\
   (demo_submit_to demo_chain_bad_index).1.2 = success) /\
  ((demo_submit_to demo_chain_object_index).1.1 !! "record_keys" = Some [Byte.x02] /\
   (demo_submit_to demo_chain_object_index).1.2 = error).
Proof.
  unfold demo_submit_to. split; [|split].
  - destruct (submitRecord_index_update demo_parse demo_stringify
                "1700000000000" "k3j9x2a" "FHE-e30=" "0xabc" (of_int 1700000000)
                demo_form demo_chain_array_index [Byte.x01]
                [JString "a"; JString "b"; JString "c"] JNull eq_refl (Nat.lt_0_succ 0))
      as (Harr & _ & _).
    destruct (Harr eq_refl) as [Hchain Hstatus]. rewrite Hchain.
    split; [apply lookup_insert_eq|exact Hstatus].
  - destruct (submitRecord_index_update demo_parse demo_stringify
                "1700000000000" "k3j9x2a" "FHE-e30=" "0xabc" (of_int 1700000000)
                demo_form demo_chain_bad_index [Byte.xff] [] JNull eq_refl
                (Nat.lt_0_succ 0)) as (_ & Hbad & _).
    destruct (Hbad eq_refl) as [Hchain Hstatus]. rewrite Hchain.
    split; [apply lookup_insert_eq|exact Hstatus].
  - destruct (submitRecord_index_update demo_parse demo_stringify
                "1700000000000" "k3j9x2a" "FHE-e30=" "0xabc" (of_int 1700000000)
                demo_form demo_chain_object_index [Byte.x02] [] demo_record eq_refl
                (Nat.lt_0_succ 0)) as (_ & _ & Hobj).
    destruct (Hobj eq_refl eq_refl) as (_ & Hkeys & Hstatus).
    split; [exact Hkeys|exact Hstatus].
Defined.

(** *** Submitting, then loading *)

(** X19. A record that is submitted is loaded back.  If no call throws,
    the index was absent, and the two blobs written are not empty and parse
    back to what was printed, then [loadRecords] on the resulting chain shows
    the record: its id is the record id, and its fields are the placeholder
    ciphertext, the timestamp, the account, the work type and the score. *)
Theorem submit_then_load (parse : bytes -> option json) (stringify : json -> bytes)
    (ToString : json -> string) (ToNumber : jsval -> Number)
    (millis suffix encrypted account : string) (seconds : Number)
    (newRecordData : NewRecordData) (chain : Chain) (st : AppState) :
  let recordId := millis +:+ "-" +:+ suffix in
  let written := recordData encrypted seconds account newRecordData in
  let index := JArray [JString recordId] in
  let result := submitRecord parse stringify true (Got tt)
                  (mkFaults false false false) millis suffix
                  encrypted seconds account newRecordData chain in
  chain !! "record_keys" = None ->
  parse (stringify written) = Some written ->
  (0 < length (stringify written))%nat ->
  parse (stringify index) = Some index ->
  (0 < length (stringify index))%nat ->
  ToString (JString recordId) = recordId ->
  result.1.2 = success /\
  records (fst (loadRecords parse ToString ToNumber
                  (Got (chain_getData result.1.1)) st))
    = [submitted_record recordId encrypted seconds account newRecordData].
Proof.
  intros recordId written index result Hnone Hpw Hlw Hpi Hli Hts.
  pose proof (record_key_not_index millis suffix) as Hne. fold recordId in Hne.
  assert (Hres : result =
            (<["record_keys" := stringify index]>
               (<["record_" +:+ recordId := stringify written]> chain), success, [])).
  { subst result. unfold submitRecord. cbv zeta. simpl negb. cbv iota.
    fold recordId written. unfold bytes in *.
    assert (Hkeep : <["record_" +:+ recordId := stringify written]> chain
                      !! "record_keys" = None) by by rewrite lookup_insert_ne.
    rewrite Hkeep. done. }
  assert (Hchain : result.1.1 =
            <["record_keys" := stringify index]>
              (<["record_" +:+ recordId := stringify written]> chain))
    by by rewrite Hres.
  split; [by rewrite Hres|].
  set (contract := chain_getData result.1.1).
  assert (Hkeys : contract "record_keys" = Some (stringify index)).
  { unfold contract, chain_getData. rewrite Hchain. by rewrite lookup_insert_eq. }
  assert (Hblob : contract ("record_" +:+ ToString (JString recordId))
                  = Some (stringify written)).
  { unfold contract, chain_getData. rewrite Hts, Hchain.
    rewrite lookup_insert_ne by done. by rewrite lookup_insert_eq. }
  pose proof (loadRecords_array parse ToString ToNumber contract st (stringify index)
                [JString recordId] Hkeys Hli Hpi) as Hrecords.
  unfold ReadContract, bytes in *. rewrite Hrecords. simpl.
  unfold load_key. rewrite Hblob. apply Nat.ltb_lt in Hlw. unfold bytes in *.
  rewrite Hlw, Hpw. reflexivity.
Qed.

Lemma submit_then_load_witness :
  demo_submit_fresh.1.2 = success /\
  records (fst (loadRecords demo_read demo_ToString demo_ToNumber
                  (Got (chain_getData demo_submit_fresh.1.1)) demo_state))
    = [submitted_record "1700000000000-k3j9x2a" "FHE-e30=" (of_int 1700000000)
                        "0xabc" demo_form].
Proof.
  exact (submit_then_load demo_read demo_print demo_ToString demo_ToNumber
           "1700000000000" "k3j9x2a" "FHE-e30=" "0xabc" (of_int 1700000000)
           demo_form ∅ demo_state eq_refl eq_refl (Nat.lt_0_succ 0) eq_refl
           (Nat.lt_0_succ 0) eq_refl).
Defined.

(** *** What a submission leaves alone *)

(** X20. A submission touches two entries at most.  Whatever throws and
    whatever the index holds, every entry other than the new record's blob
    and the index is left as it was, the blobs of older records included;
    and unless the submission ends in success the index is left as it was
    too. *)
Theorem submitRecord_keeps_other_entries (parse : bytes -> option json)
    (stringify : json -> bytes) (provider : bool)
    (getContractWithSigner : Acquired unit) (faults : Faults)
    (millis suffix encrypted account : string) (seconds : Number)
    (newRecordData : NewRecordData) (chain : Chain) (key : string) :
  let recordId := millis +:+ "-" +:+ suffix in
  let result := submitRecord parse stringify provider getContractWithSigner
                  faults millis suffix encrypted seconds account newRecordData
                  chain in
  (key <> "record_" +:+ recordId -> key <> "record_keys" ->
   result.1.1 !! key = chain !! key) /\
  (result.1.2 <> success ->
   result.1.1 !! "record_keys" = chain !! "record_keys").
Proof.
  intros recordId result. subst result. unfold submitRecord. cbv zeta.
  pose proof (record_key_not_index millis suffix) as Hne. fold recordId in Hne.
  fold recordId.
  destruct provider; simpl negb; cbv iota; [|done].
  destruct getContractWithSigner; try done.
  destruct (setData_record_throws faults); [done|].
  destruct (getData_keys_throws faults).
  { split; [intros H1 _|intros _]; simpl; by rewrite lookup_insert_ne. }
  match goal with
  | |- context [let '(keys, log) := ?p in _] => destruct p as [keys log]
  end.
  destruct (push keys recordId) as [keys'|].
  - destruct (setData_keys_throws faults); simpl.
    + split; [intros H1 _|intros _]; by rewrite lookup_insert_ne.
    + split; [|done]. intros H1 H2. by rewrite !lookup_insert_ne.
  - split; [intros H1 _|intros _]; simpl; by rewrite lookup_insert_ne.
Qed.

Lemma submitRecord_keeps_other_entries_witness :
  (demo_submit_to (<["record_a" := [Byte.x03]]> demo_chain_object_index)).1.1
    !! "record_a" = Some [Byte.x03] /\
  (demo_submit_to (<["record_a" := [Byte.x03]]> demo_chain_object_index)).1.1
    !! "record_keys" = Some [Byte.x02].
Proof.
  destruct (submitRecord_keeps_other_entries demo_parse demo_stringify true (Got tt)
              (mkFaults false false false) "1700000000000" "k3j9x2a" "FHE-e30="
              "0xabc" (of_int 1700000000) demo_form
              (<["record_a" := [Byte.x03]]> demo_chain_object_index) "record_a")
    as [Hother Hindex].
  split.
  - unfold demo_submit_to. etrans; [apply Hother; discriminate|reflexivity].
  - unfold demo_submit_to. etrans; [apply Hindex|reflexivity].
    vm_compute. discriminate.
Defined.


(** *** The score at the edges of the form *)

Lemma on_form_range (P : Z -> Z -> Z -> bool) (h t d : Z) :
  forallb (fun h =>
    forallb (fun t => forallb (fun d => P h t d) (Z_range distractions_min 21))
      (Z_range tasksCompleted_min 51))
    (Z_range hoursWorked_min 16) = true ->
  (hoursWorked_min <= h <= hoursWorked_max)%Z ->
  (tasksCompleted_min <= t <= tasksCompleted_max)%Z ->
  (distractions_min <= d <= distractions_max)%Z ->
  P h t d = true.
Proof.
  unfold hoursWorked_min, hoursWorked_max, tasksCompleted_min, tasksCompleted_max,
    distractions_min, distractions_max.
  intros Hall Hh Ht Hd.
  assert (Ih : In h (Z_range 1 16)) by (apply in_Z_range; lia).
  assert (It : In t (Z_range 0 51)) by (apply in_Z_range; lia).
  assert (Id : In d (Z_range 0 21)) by (apply in_Z_range; lia).
  rewrite forallb_forall in Hall. specialize (Hall h Ih).
  rewrite forallb_forall in Hall. specialize (Hall t It).
  rewrite forallb_forall in Hall. exact (Hall d Id).
Qed.

Lemma score_formula_bounds_on_form_range :
  forallb (fun h =>
    forallb (fun t =>
      forallb (fun d => (-10 <=? score_formula h t d)%Z
                        && (score_formula h t d <=? 500)%Z)
        (Z_range distractions_min 21))
      (Z_range tasksCompleted_min 51))
    (Z_range hoursWorked_min 16) = true.
Proof. vm_compute. reflexivity. Qed.

Lemma score_in_range (workType : string) (h t d : Z) :
  (hoursWorked_min <= h <= hoursWorked_max)%Z ->
  (tasksCompleted_min <= t <= tasksCompleted_max)%Z ->
  (distractions_min <= d <= distractions_max)%Z ->
  to_int (productivityScore
            (mkNewRecordData workType (of_int h) (of_int t) (of_int d)))
    = Some (score_formula h t d).
Proof.
  intros Hh Ht Hd.
  pose proof (score_agrees_in_range h t d Hh Ht Hd) as Hagree.
  unfold score_agrees, form_data, productivityScore in *. simpl in *.
  destruct (to_int _) as [z|]; [|discriminate].
  apply Z.eqb_eq in Hagree. by subst.
Qed.

Lemma score_formula_distractions (h t d d' : Z) :
  (d <= d')%Z -> (score_formula h t d' <= score_formula h t d)%Z.
Proof.
  intros Hd. unfold score_formula, round_half_up. apply Qfloor_resp_le.
  apply Qplus_le_l. apply Qplus_le_r. apply Qopp_le_compat.
  apply Qmult_le_compat_r; [|done]. by rewrite <- Zle_Qle.
Qed.

Lemma score_formula_tasks (h t t' d : Z) :
  (0 < h)%Z -> (t <= t')%Z -> (score_formula h t d <= score_formula h t' d)%Z.
Proof.
  intros Hh Ht. unfold score_formula, round_half_up. apply Qfloor_resp_le.
  apply Qplus_le_l. apply Qplus_le_l.
  apply Qmult_le_compat_r; [|done].
  apply Qmult_le_compat_r; [by rewrite <- Zle_Qle|].
  apply Qinv_le_0_compat. by rewrite <- (Zle_Qle 0); lia.
Qed.

(** Every combination of tasks and distractions within the form's bounds,
    with zero hours. *)
Lemma zero_hours_on_form_range :
  forallb (fun t =>
    forallb (fun d =>
      match productivityScore (form_data 0 t d) with
      | S754_infinity false => (0 <? t)%Z
      | S754_nan => (t =? 0)%Z
      | _ => false
      end) (Z_range distractions_min 21))
    (Z_range tasksCompleted_min 51) = true.
Proof. vm_compute. reflexivity. Qed.

(** X21. Within the form's bounds the score is a whole number between -10
    and 500, and both ends are reached: 500 by fifty tasks in one hour
    without distraction, -10 by no task and twenty distractions. *)
Theorem productivityScore_bounds (workType : string) (h t d : Z) :
  (hoursWorked_min <= h <= hoursWorked_max)%Z ->
  (tasksCompleted_min <= t <= tasksCompleted_max)%Z ->
  (distractions_min <= d <= distractions_max)%Z ->
  exists z : Z,
    to_int (productivityScore
              (mkNewRecordData workType (of_int h) (of_int t) (of_int d)))
      = Some z /\
    (-10 <= z <= 500)%Z /\
    (h = 1 -> t = 50 -> d = 0 -> z = 500)%Z /\
    (t = 0 -> d = 20 -> z = -10)%Z.
Proof.
  intros Hh Ht Hd. exists (score_formula h t d).
  split; [by apply score_in_range|].
  pose proof (on_form_range _ h t d score_formula_bounds_on_form_range Hh Ht Hd)
    as Hb.
  apply andb_true_iff in Hb as [Hlo Hhi].
  apply Z.leb_le in Hlo, Hhi.
  split; [lia|]. split.
  - intros -> -> ->. reflexivity.
  - intros -> ->.
    unfold hoursWorked_min, hoursWorked_max in Hh.
    assert (Ih : In h (Z_range 1 16)) by (apply in_Z_range; lia).
    assert (Hall : forallb (fun h => (score_formula h 0 20 =? -10)%Z)
                     (Z_range 1 16) = true) by (vm_compute; reflexivity).
    rewrite forallb_forall in Hall. apply Z.eqb_eq. by apply Hall.
Qed.

Lemma productivityScore_bounds_witness :
  exists z : Z,
    to_int (productivityScore
              (mkNewRecordData "office" (of_int 1) (of_int 50) (of_int 0)))
      = Some z /\
    (-10 <= z <= 500)%Z /\
    (1 = 1 -> 50 = 50 -> 0 = 0 -> z = 500)%Z /\
    (50 = 0 -> 0 = 20 -> z = -10)%Z.
Proof.
  apply (productivityScore_bounds "office" 1 50 0);
    unfold hoursWorked_min, hoursWorked_max, tasksCompleted_min,
      tasksCompleted_max, distractions_min, distractions_max; lia.
Defined.

(** X22. Within the form's bounds the score never goes down when more tasks
    are completed in the same hours, and never goes up with more
    distractions. *)
Theorem productivityScore_monotone (workType workType' : string)
    (h t t' d d' : Z) :
  (hoursWorked_min <= h <= hoursWorked_max)%Z ->
  (tasksCompleted_min <= t)%Z -> (t <= t')%Z ->
  (t' <= tasksCompleted_max)%Z ->
  (distractions_min <= d')%Z -> (d' <= d)%Z ->
  (d <= distractions_max)%Z ->
  exists z z' : Z,
    to_int (productivityScore
              (mkNewRecordData workType (of_int h) (of_int t) (of_int d)))
      = Some z /\
    to_int (productivityScore
              (mkNewRecordData workType' (of_int h) (of_int t') (of_int d')))
      = Some z' /\
    (z <= z')%Z.
Proof.
  intros Hh Ht Htt Ht' Hd' Hdd Hd.
  exists (score_formula h t d), (score_formula h t' d').
  split; [apply score_in_range; lia|].
  split; [apply score_in_range; lia|].
  transitivity (score_formula h t' d).
  - apply score_formula_tasks; [|done]. unfold hoursWorked_min in Hh. lia.
  - by apply score_formula_distractions.
Qed.

Lemma productivityScore_monotone_witness :
  exists z z' : Z,
    to_int (productivityScore
              (mkNewRecordData "remote" (of_int 8) (of_int 5) (of_int 3)))
      = Some z /\
    to_int (productivityScore
              (mkNewRecordData "office" (of_int 8) (of_int 6) (of_int 2)))
      = Some z' /\
    (z <= z')%Z.
Proof.
  apply (productivityScore_monotone "remote" "office" 8 5 6 3 2);
    unfold hoursWorked_min, hoursWorked_max, tasksCompleted_min,
      tasksCompleted_max, distractions_min, distractions_max; lia.
Defined.

(** X23. Nothing in [submitRecord] rejects zero hours.  With [hoursWorked]
    zero and tasks and distractions within the form's bounds the score is
    not a whole number: it is plus infinity as soon as one task is completed
    and NaN when none is. *)
Theorem productivityScore_zero_hours (workType : string) (t d : Z) :
  (tasksCompleted_min <= t <= tasksCompleted_max)%Z ->
  (distractions_min <= d <= distractions_max)%Z ->
  let score :=
    productivityScore
      (mkNewRecordData workType (of_int 0) (of_int t) (of_int d)) in
  to_int score = None /\
  (0 < t -> score = S754_infinity false)%Z /\
  (t = 0 -> score = S754_nan)%Z.
Proof.
  intros Ht Hd. cbv zeta. set (score := productivityScore _).
  unfold tasksCompleted_min, tasksCompleted_max, distractions_min,
    distractions_max in *.
  pose proof zero_hours_on_form_range as Hall.
  assert (It : In t (Z_range 0 51)) by (apply in_Z_range; lia).
  assert (Id : In d (Z_range 0 21)) by (apply in_Z_range; lia).
  rewrite forallb_forall in Hall. specialize (Hall t It).
  rewrite forallb_forall in Hall. specialize (Hall d Id).
  change (productivityScore (form_data 0 t d)) with score in Hall.
  destruct score as [| [] | |]; try discriminate Hall.
  - apply Z.ltb_lt in Hall. split; [done|]. split; [done|lia].
  - apply Z.eqb_eq in Hall. split; [done|]. split; [lia|done].
Qed.

Lemma productivityScore_zero_hours_witness :
  to_int (productivityScore
            (mkNewRecordData "remote" (of_int 0) (of_int 5) (of_int 2))) = None /\
  productivityScore
    (mkNewRecordData "remote" (of_int 0) (of_int 5) (of_int 2))
    = S754_infinity false.
Proof.
  destruct (productivityScore_zero_hours "remote" 5 2) as (Hnone & Hinf & _);
    [unfold tasksCompleted_min, tasksCompleted_max; lia
    |unfold distractions_min, distractions_max; lia|].
  split; [exact Hnone|]. apply Hinf. lia.
Defined.

(** *** The score against the exact formula *)







End FrontendFacts.
